(** * Steel plants dashboard: filtering and aggregation pipeline

    A shallow embedding of [streamlit.py]: the tables the dashboard loads,
    the sidebar controls, the filtering logic of [main] and the aggregation
    functions that feed each view.

    Conventions of the embedding.
    - A pandas cell that is absent (NaN) is [None]; a finite number is a
      rational [Q] (comparisons of finite floats are exact on rationals);
      text is a [string].
    - A [DataFrame] carries its column names and its rows; each row carries
      the index label pandas gave it at load time.
    - Data frames live in a heap and are handled through references, as
      Python objects are; the filtering code runs in a small state and
      error monad over that heap.
    - The plotting library and the widgets are external: a figure is the
      record of the data handed to the plotting call. *)

From Stdlib Require Import String Ascii.
From Stdlib Require Import List Bool Arith ZArith QArith Qround Lia Lqa.
From Stdlib Require Import DecimalString Sorted.
From Stdlib Require Import Permutation.
Import ListNotations.

Local Open Scope string_scope.
Local Open Scope list_scope.
Local Open Scope nat_scope.

(** ** Data model *)

Definition country_col : string := "Country/Area_x".
Definition owner_col : string := "Owner".
Definition capcol : string := "Nominal crude steel capacity (ttpa)".
Definition latitude_col : string := "latitude".
Definition longitude_col : string := "longitude".
Definition latitude_left_col : string := "latitude_left".
Definition longitude_left_col : string := "longitude_left".
Definition value_col : string := "value".
Definition plant_name_col : string := "Plant name (English)_x".
Definition region_col : string := "Region".

(** One row of [operating_plants.csv] or [merged_environmental_data.csv].
    A field is [None] where the cell is NaN (or the column is not in the
    table at all). *)
Record PlantRecord : Type := mkPlant {
  plant_name : option string;
  owner : option string;
  country : option string;
  capacity : option Q;
  latitude : option Q;
  longitude : option Q;
  latitude_left : option Q;
  longitude_left : option Q;
  value : option Q;
  region : option string
}.

(** A data frame: the column names of the header and the rows, each with
    its index label. *)
Record Frame (R : Type) : Type := mkFrame {
  columns : list string;
  rows : list (nat * R)
}.

Arguments mkFrame {R} columns rows.
Arguments columns {R} f.
Arguments rows {R} f.

Definition DataFrame := Frame PlantRecord.

Definition has_col {R} (df : Frame R) (c : string) : bool :=
  existsb (String.eqb c) (columns df).

Definition index {R} (df : Frame R) : list nat := map fst (rows df).

Definition len {R} (df : Frame R) : nat := List.length (rows df).

(** [df.empty]: no row or no column. *)
Definition empty {R} (df : Frame R) : bool :=
  match rows df, columns df with
  | [], _ => true
  | _, [] => true
  | _, _ => false
  end.

(** [pd.read_csv]: the header and the records of the file, labelled with a
    [RangeIndex]. *)
Definition read_csv {R} (header : list string) (records : list R) : Frame R :=
  {| columns := header; rows := combine (seq 0 (List.length records)) records |}.

(** ** Errors and the heap monad *)

Inductive PyError : Type :=
| KeyError (col : string)
| ValueError
| DanglingRef.

Inductive result (A : Type) : Type :=
| Ok (a : A)
| Raise (e : PyError).

Arguments Ok {A} a.
Arguments Raise {A} e.

Definition Ref := nat.
Definition Heap := list DataFrame.

Definition M (A : Type) : Type := Heap -> result (A * Heap).

Definition ret {A} (a : A) : M A := fun h => Ok (a, h).

Definition bind {A B} (m : M A) (k : A -> M B) : M B :=
  fun h => match m h with
           | Ok (a, h') => k a h'
           | Raise e => Raise e
           end.

Notation "x <- m ;; k" := (bind m (fun x => k))
  (at level 61, m at next level, right associativity).

Definition lift {A} (r : result A) : M A :=
  fun h => match r with Ok a => Ok (a, h) | Raise e => Raise e end.

Definition deref (r : Ref) : M DataFrame :=
  fun h => match nth_error h r with
           | Some df => Ok (df, h)
           | None => Raise DanglingRef
           end.

Definition alloc (df : DataFrame) : M Ref :=
  fun h => Ok (List.length h, h ++ [df]).

(** ** Series and boolean masks *)

Definition Series (A : Type) := list (option A).

(** [df[col]]: a [KeyError] when the column is not in the header. *)
Definition getitem {R A} (df : Frame R) (col : string) (field : R -> option A)
  : result (Series A) :=
  if has_col df col then Ok (map (fun ir => field (snd ir)) (rows df))
  else Raise (KeyError col).

(** [series == s]: NaN compares unequal to everything. *)
Definition eq_str (s : Series string) (x : string) : list bool :=
  map (fun c => match c with Some y => String.eqb y x | None => false end) s.

(** [series >= n] and [series <= n] against a Python int: False on NaN. *)
Definition ge_int (s : Series Q) (n : Z) : list bool :=
  map (fun c => match c with Some q => Qle_bool (inject_Z n) q | None => false end) s.

Definition le_int (s : Series Q) (n : Z) : list bool :=
  map (fun c => match c with Some q => Qle_bool q (inject_Z n) | None => false end) s.

(** [series > x] against a float that may itself be NaN. *)
Definition gt_float (s : Series Q) (x : option Q) : list bool :=
  map (fun c => match c, x with
                | Some q, Some t => negb (Qle_bool q t)
                | _, _ => false
                end) s.

(** [m1 & m2] on boolean masks of the same frame. *)
Fixpoint mask_and (m1 m2 : list bool) : list bool :=
  match m1, m2 with
  | b1 :: t1, b2 :: t2 => (b1 && b2) :: mask_and t1 t2
  | _, _ => []
  end.

(** [df[mask]]: the rows at which the mask is True, header unchanged. *)
Fixpoint select {X} (l : list X) (mask : list bool) : list X :=
  match l, mask with
  | x :: l', b :: mask' => if b then x :: select l' mask' else select l' mask'
  | _, _ => []
  end.

Definition getitem_mask {R} (df : Frame R) (mask : list bool) : Frame R :=
  {| columns := columns df; rows := select (rows df) mask |}.

(** Heap versions: [df.copy()] and [df[mask]] build a new object. *)
Definition copy (r : Ref) : M Ref :=
  df <- deref r ;; alloc df.

Definition column {A} (r : Ref) (col : string) (field : PlantRecord -> option A)
  : M (Series A) :=
  df <- deref r ;; lift (getitem df col field).

Definition index_by_mask (r : Ref) (mask : list bool) : M Ref :=
  df <- deref r ;; alloc (getitem_mask df mask).

Definition in_columns (r : Ref) (col : string) : M bool :=
  df <- deref r ;; ret (has_col df col).

(** ** The filtering logic of [main] *)

Definition All : string := "All".

(** The three filter steps, each on the frame bound to [filtered_df]. *)
Definition country_step (selected_country : string) (filtered_df : Ref) : M Ref :=
  if negb (String.eqb selected_country All) then
    c <- column filtered_df country_col country ;;
    index_by_mask filtered_df (eq_str c selected_country)
  else ret filtered_df.

Definition owner_step (selected_company : string) (filtered_df : Ref) : M Ref :=
  if negb (String.eqb selected_company All) then
    o <- column filtered_df owner_col owner ;;
    index_by_mask filtered_df (eq_str o selected_company)
  else ret filtered_df.

Definition capacity_step (capacity_range : Z * Z) (filtered_df : Ref) : M Ref :=
  present <- in_columns filtered_df capcol ;;
  if present then
    lo <- column filtered_df capcol capacity ;;
    hi <- column filtered_df capcol capacity ;;
    index_by_mask filtered_df
      (mask_and (ge_int lo (fst capacity_range)) (le_int hi (snd capacity_range)))
  else ret filtered_df.

Definition filtering_logic (df : Ref) (selected_country selected_company : string)
    (capacity_range : Z * Z) : M Ref :=
  filtered_df <- copy df ;;
  filtered_df <- country_step selected_country filtered_df ;;
  filtered_df <- owner_step selected_company filtered_df ;;
  capacity_step capacity_range filtered_df.

(** Running a piece of the script on a heap that holds only the freshly
    loaded base table, and reading the frame it returns. *)
Definition run_on (base : DataFrame) (f : Ref -> M Ref) : result DataFrame :=
  match f 0 [base] with
  | Ok (r, h) => match nth_error h r with
                 | Some out => Ok out
                 | None => Raise DanglingRef
                 end
  | Raise e => Raise e
  end.

Definition run_filter (base : DataFrame) (selected_country selected_company : string)
    (capacity_range : Z * Z) : result DataFrame :=
  run_on base (fun df => filtering_logic df selected_country selected_company capacity_range).

(** ** Row predicates of the three filters *)

Definition str_is (x : string) (c : option string) : bool :=
  match c with Some y => String.eqb y x | None => false end.

Definition country_pred (selected_country : string) (r : PlantRecord) : bool :=
  if String.eqb selected_country All then true
  else str_is selected_country (country r).

Definition owner_pred (selected_company : string) (r : PlantRecord) : bool :=
  if String.eqb selected_company All then true
  else str_is selected_company (owner r).

Definition capacity_within (capacity_range : Z * Z) (r : PlantRecord) : bool :=
  match capacity r with
  | Some c => Qle_bool (inject_Z (fst capacity_range)) c
              && Qle_bool c (inject_Z (snd capacity_range))
  | None => false
  end.

Definition capacity_pred (df : DataFrame) (capacity_range : Z * Z)
    (r : PlantRecord) : bool :=
  if has_col df capcol then capacity_within capacity_range r else true.

(** The widget values [main] can receive for a table: a selector offers a
    value other than ["All"] only when its column is in the header. *)
Definition criteria_ok (df : DataFrame) (selected_country selected_company : string)
  : bool :=
  (String.eqb selected_country All || has_col df country_col)
  && (String.eqb selected_company All || has_col df owner_col).

(** The rows the whole chain keeps. *)

Definition keep (df : DataFrame) (selected_country selected_company : string)
    (capacity_range : Z * Z) (ir : nat * PlantRecord) : bool :=
  country_pred selected_country (snd ir)
  && owner_pred selected_company (snd ir)
  && capacity_pred df capacity_range (snd ir).


(** ** Sidebar controls *)

Fixpoint dropna {A} (s : Series A) : list A :=
  match s with
  | [] => []
  | Some a :: t => a :: dropna t
  | None :: t => dropna t
  end.

(** [Series.unique()]: distinct values in order of first appearance. *)
Fixpoint unique_from (seen l : list string) : list string :=
  match l with
  | [] => []
  | x :: t => if existsb (String.eqb x) seen then unique_from seen t
              else x :: unique_from (x :: seen) t
  end.

Definition unique (l : list string) : list string := unique_from [] l.

(** [sorted] on a list of strings. *)
Fixpoint insert_str (x : string) (l : list string) : list string :=
  match l with
  | [] => [x]
  | y :: t => if String.leb x y then x :: l else y :: insert_str x t
  end.

Fixpoint sorted (l : list string) : list string :=
  match l with
  | [] => []
  | x :: t => insert_str x (sorted t)
  end.

(** [['All'] + sorted(df[col].dropna().unique().tolist()) if col in df.columns
    else ['All']]. *)
Definition selector_options (df : DataFrame) (col : string)
    (field : PlantRecord -> option string) : list string :=
  if has_col df col
  then All :: sorted (unique (dropna (map (fun ir => field (snd ir)) (rows df))))
  else [All].

(** [Series.max()] and [Series.min()] skip NaN and are NaN on no values. *)
Definition Qmax2 (a b : Q) : Q := if Qle_bool a b then b else a.
Definition Qmin2 (a b : Q) : Q := if Qle_bool a b then a else b.

Fixpoint series_max (s : Series Q) : option Q :=
  match s with
  | [] => None
  | None :: t => series_max t
  | Some q :: t => match series_max t with
                   | None => Some q
                   | Some m => Some (Qmax2 q m)
                   end
  end.

Fixpoint series_min (s : Series Q) : option Q :=
  match s with
  | [] => None
  | None :: t => series_min t
  | Some q :: t => match series_min t with
                   | None => Some q
                   | Some m => Some (Qmin2 q m)
                   end
  end.

(** [int(x)]: truncation toward zero; [ValueError] on NaN. *)
Definition int_ (x : option Q) : result Z :=
  match x with
  | Some q => Ok (Z.quot (Qnum q) (Zpos (Qden q)))
  | None => Raise ValueError
  end.

Definition cap_max (df : DataFrame) : result Z :=
  if has_col df capcol
  then int_ (series_max (map (fun ir => capacity (snd ir)) (rows df)))
  else Ok 1%Z.

(** The arguments of the [st.sidebar.slider] call. *)
Record Slider : Type := mkSlider {
  min_value : Z;
  max_value : Z;
  slider_value : Z * Z
}.

Definition capacity_slider (df : DataFrame) : result Slider :=
  match cap_max df with
  | Ok m => Ok {| min_value := 0; max_value := m; slider_value := (0%Z, m) |}
  | Raise e => Raise e
  end.

Record Sidebar : Type := mkSidebar {
  countries : list string;
  companies : list string;
  slider : Slider
}.

Definition sidebar_filters (df : Ref) : M Sidebar :=
  base <- deref df ;;
  sl <- lift (capacity_slider base) ;;
  ret {| countries := selector_options base country_col country;
         companies := selector_options base owner_col owner;
         slider := sl |}.

(** The values the three widgets return in one run of the script. *)
Record Selection : Type := mkSelection {
  selected_country : string;
  selected_company : string;
  capacity_range : Z * Z
}.

(** One run of [main] up to the filtered frame: the sidebar is built from
    [df], then the selection is filtered. *)
Definition main_run (df : Ref) (w : Selection) : M (Sidebar * Ref) :=
  sb <- sidebar_filters df ;;
  filtered_df <- filtering_logic df (selected_country w) (selected_company w)
                   (capacity_range w) ;;
  ret (sb, filtered_df).

(** The script reruns on every interaction, over the same loaded table. *)
Fixpoint session (df : Ref) (ws : list Selection) : M (list (Sidebar * Ref)) :=
  match ws with
  | [] => ret []
  | w :: ws' =>
      o <- main_run df w ;;
      os <- session df ws' ;;
      ret (o :: os)
  end.

(** The observed capacity range of a table. *)
Definition observed_min (df : DataFrame) : option Q :=
  series_min (map (fun ir => capacity (snd ir)) (rows df)).

Definition observed_max (df : DataFrame) : option Q :=
  series_max (map (fun ir => capacity (snd ir)) (rows df)).

(** Whether a capacity range covers everything observed in a table. *)
Definition covers_observed_range (df : DataFrame) (range : Z * Z) : bool :=
  match observed_min df with
  | Some m => Qle_bool (inject_Z (fst range)) m
  | None => true
  end
  && match observed_max df with
     | Some m => Qle_bool m (inject_Z (snd range))
     | None => true
     end.

Definition is_present {A} (c : option A) : bool :=
  match c with Some _ => true | None => false end.

(** Order-preserving sublists. *)
Inductive Subseq {X : Type} : list X -> list X -> Prop :=
| Subseq_nil : Subseq [] []
| Subseq_skip (x : X) (l1 l2 : list X) : Subseq l1 l2 -> Subseq l1 (x :: l2)
| Subseq_take (x : X) (l1 l2 : list X) : Subseq l1 l2 -> Subseq (x :: l1) (x :: l2).

(** ** Example tables *)

Definition plants_header : list string :=
  [plant_name_col; owner_col; country_col; capcol; latitude_col; longitude_col].

Definition plant (name o c : string) (cap : option Q) : PlantRecord :=
  {| plant_name := Some name; owner := Some o; country := Some c; capacity := cap;
     latitude := Some 0%Q; longitude := Some 0%Q;
     latitude_left := None; longitude_left := None; value := None; region := None |}.

(** Two plants, one of them with no capacity on record. *)
Definition plants_one_unknown : DataFrame :=
  read_csv plants_header
    [plant "Alpha Works" "Acme" "A" (Some 100%Q);
     plant "Beta Works" "Borg" "B" None].

(** Three plants with capacities 100, 200, 300 in countries A, A, B. *)
Definition plants_abc : DataFrame :=
  read_csv plants_header
    [plant "P1" "Acme" "A" (Some 100%Q);
     plant "P2" "Borg" "A" (Some 200%Q);
     plant "P3" "Acme" "B" (Some 300%Q)].

(** A plant whose capacity is not a whole number. *)
Definition plants_fractional : DataFrame :=
  read_csv plants_header [plant "P" "Acme" "A" (Some (201 # 2)%Q)].

(** ** Numbers as Python shows them *)

(** A Python number handed to a format string: an int, or a float that may
    be NaN. *)
Inductive PyNum : Type :=
| PyInt (z : Z)
| PyFloat (x : option Q).

Fixpoint commas_rev (l : list ascii) (k : nat) : list ascii :=
  match l with
  | [] => []
  | c :: t =>
      match k, t with
      | 2, _ :: _ => c :: ","%char :: commas_rev t 0
      | _, _ => c :: commas_rev t (S k)
      end
  end.

(** Digits grouped in threes from the right. *)
Definition thousands (digits : string) : string :=
  string_of_list_ascii (rev (commas_rev (rev (list_ascii_of_string digits)) 0)).

Definition decimal (n : Z) : string :=
  NilZero.string_of_uint (N.to_uint (Z.to_N (Z.abs n))).

(** Rounding to the nearest integer, ties to even. *)
Definition round_half_even (q : Q) : Z :=
  let f := Z.div (Qnum q) (Zpos (Qden q)) in
  let r := Z.modulo (Qnum q) (Zpos (Qden q)) in
  match (2 * r ?= Zpos (Qden q))%Z with
  | Lt => f
  | Gt => (f + 1)%Z
  | Eq => if Z.even f then f else (f + 1)%Z
  end.

(** [f"{x:,.0f}"]. *)
Definition format_comma_0f (x : PyNum) : string :=
  match x with
  | PyFloat None => "nan"
  | PyFloat (Some q) =>
      ((if Qle_bool 0 q then "" else "-") ++ thousands (decimal (round_half_even q)))%string
  | PyInt z =>
      ((if (z <? 0)%Z then "-" else "") ++ thousands (decimal z))%string
  end.

(** [f"{n:,}"] and [f"{n}"] on an int. *)
Definition format_comma (n : nat) : string := thousands (decimal (Z.of_nat n)).
Definition format_plain (n : nat) : string := decimal (Z.of_nat n).

(** ** Metrics summary *)

Definition Qsum (l : list Q) : Q := fold_left Qplus l 0%Q.

(** [Series.sum()] skips NaN and is 0 on no values; [Series.mean()] skips
    NaN and is NaN on no values; [Series.nunique()] does not count NaN. *)
Definition series_sum (s : Series Q) : Q := Qsum (dropna s).

Definition series_mean (s : Series Q) : option Q :=
  match dropna s with
  | [] => None
  | l => Some (Qsum l / inject_Z (Z.of_nat (List.length l)))%Q
  end.

Definition nunique (s : Series string) : nat := List.length (unique (dropna s)).

(** The values computed by [create_metrics_row] and the four [st.metric]
    cards (label, shown text) it emits. *)
Record MetricsRow : Type := mkMetricsRow {
  n_plants : nat;
  tc : PyNum;
  avgc : PyNum;
  ncountries : nat;
  cards : list (string * string)
}.

Definition create_metrics_row (df : DataFrame) : MetricsRow :=
  let caps := map (fun ir => capacity (snd ir)) (rows df) in
  let tc := if has_col df capcol then PyFloat (Some (series_sum caps)) else PyInt 0 in
  let avgc := if has_col df capcol then PyFloat (series_mean caps) else PyInt 0 in
  let ncountries :=
    if has_col df country_col
    then nunique (map (fun ir => country (snd ir)) (rows df)) else 0 in
  {| n_plants := len df;
     tc := tc;
     avgc := avgc;
     ncountries := ncountries;
     cards :=
       [("Total Operating Plants", format_comma (len df));
        ("Total Global Capacity", (format_comma_0f tc ++ " ttpa")%string);
        ("Average Plant Capacity", (format_comma_0f avgc ++ " ttpa")%string);
        ("Countries with Plants", format_plain ncountries)] |}.

(** A plants table with the usual header and no row, as an over-narrow
    filter leaves it. *)
Definition plants_none : DataFrame := {| columns := plants_header; rows := [] |}.

(** ** Company charts *)

(** One row of [company_aggregation.csv]. *)
Record CompanyAggregate : Type := mkCompany {
  company_owner : option string;
  total_capacity : option Q;
  number_of_plants : option Q;
  number_of_countries : option Q
}.

Definition CompanyFrame := Frame CompanyAggregate.

Definition total_capacity_col : string := "total_capacity".
Definition number_of_plants_col : string := "number_of_plants".
Definition number_of_countries_col : string := "number_of_countries".

(** [df.head(n)]. *)
Definition head {R} (n : nat) (df : Frame R) : Frame R :=
  {| columns := columns df; rows := firstn n (rows df) |}.

(** The data of a bar chart: one bar per row, in row order. *)
Record BarFig : Type := mkBar {
  bar_title : string;
  bar_x : list (option string);
  bar_y : list (option Q)
}.

(** [px.bar(df, x=..., y=..., title=...)]; the plotting library rejects a
    column name that is not in the frame. *)
Definition px_bar {R} (df : Frame R) (x : string) (xf : R -> option string)
    (y : string) (yf : R -> option Q) (title : string) : result BarFig :=
  if has_col df x && has_col df y
  then Ok {| bar_title := title;
             bar_x := map (fun ir => xf (snd ir)) (rows df);
             bar_y := map (fun ir => yf (snd ir)) (rows df) |}
  else Raise ValueError.

Definition create_company_charts (company_df : CompanyFrame)
  : result (option (BarFig * BarFig * BarFig)) :=
  if empty company_df then Ok None
  else
    let top_companies := head 20 company_df in
    match px_bar top_companies owner_col company_owner
            total_capacity_col total_capacity
            "Top 20 Companies by Total Crude Steel Capacity (ttpa)" with
    | Raise e => Raise e
    | Ok fig_capacity =>
    match px_bar top_companies owner_col company_owner
            number_of_plants_col number_of_plants
            "Top 20 Companies by Number of Operating Steel Plants" with
    | Raise e => Raise e
    | Ok fig_plants =>
    match px_bar top_companies owner_col company_owner
            number_of_countries_col number_of_countries
            "Top 20 Companies by Geographic Spread (Number of Countries)" with
    | Raise e => Raise e
    | Ok fig_countries => Ok (Some (fig_capacity, fig_plants, fig_countries))
    end end end.

(** The metric a caller asks a ranking for, and the chart that shows it. *)
Inductive Metric : Type := TotalCapacity | PlantCount | CountryCount.

Definition chart_of (m : Metric) (charts : BarFig * BarFig * BarFig) : BarFig :=
  match m, charts with
  | TotalCapacity, (fig_capacity, _, _) => fig_capacity
  | PlantCount, (_, fig_plants, _) => fig_plants
  | CountryCount, (_, _, fig_countries) => fig_countries
  end.

(** Bars in descending order: every bar is at least the one after it. *)
Fixpoint descending (l : list (option Q)) : bool :=
  match l with
  | Some a :: ((Some b :: _) as t) => Qle_bool b a && descending t
  | _ :: t => descending t
  | [] => true
  end.

Definition company_header : list string :=
  [owner_col; total_capacity_col; number_of_plants_col; number_of_countries_col].

(** Two companies, listed by total capacity: the larger one runs a single
    plant, the smaller one five plants in two countries. *)
Definition companies_two : CompanyFrame :=
  read_csv company_header
    [mkCompany (Some "Acme") (Some 300%Q) (Some 1%Q) (Some 1%Q);
     mkCompany (Some "Borg") (Some 200%Q) (Some 5%Q) (Some 2%Q)].

(** ** Environmental metrics *)

Fixpoint insert_Q (x : Q) (l : list Q) : list Q :=
  match l with
  | [] => [x]
  | y :: t => if Qle_bool x y then x :: l else y :: insert_Q x t
  end.

Fixpoint sort_Q (l : list Q) : list Q :=
  match l with
  | [] => []
  | x :: t => insert_Q x (sort_Q t)
  end.

(** [Series.quantile(q)] with the default linear interpolation: on the
    sorted non-NaN values [v] of length [n], the value at the fractional
    position [q * (n - 1)]; NaN when there is no value. *)
Definition quantile (s : Series Q) (q : Q) : option Q :=
  let v := sort_Q (dropna s) in
  match v with
  | [] => None
  | x0 :: _ =>
      let n := List.length v in
      let pos := (q * inject_Z (Z.of_nat (n - 1)))%Q in
      let k := Z.to_nat (Qfloor pos) in
      let g := (pos - inject_Z (Qfloor pos))%Q in
      let lower := nth k v x0 in
      let upper := nth (Nat.min (k + 1) (n - 1)) v x0 in
      Some (Qred (lower + (upper - lower) * g))
  end.

Record EnvMetrics : Type := mkEnvMetrics {
  avg_env_value : PyNum;
  max_env_value : PyNum;
  min_env_value : PyNum;
  high_risk_plants : nat;
  env_cards : list (string * string)
}.

Definition create_environmental_metrics (df : DataFrame) : EnvMetrics :=
  let vals := map (fun ir => value (snd ir)) (rows df) in
  let avg_env_value := if has_col df value_col then PyFloat (series_mean vals) else PyInt 0 in
  let max_env_value := if has_col df value_col then PyFloat (series_max vals) else PyInt 0 in
  let min_env_value := if has_col df value_col then PyFloat (series_min vals) else PyInt 0 in
  let high_risk_plants :=
    if has_col df value_col
    then len (getitem_mask df (gt_float vals (quantile vals (3 # 4))))
    else 0 in
  {| avg_env_value := avg_env_value;
     max_env_value := max_env_value;
     min_env_value := min_env_value;
     high_risk_plants := high_risk_plants;
     env_cards :=
       [("Average Environmental Value", format_comma_0f avg_env_value);
        ("Max Environmental Value", format_comma_0f max_env_value);
        ("Min Environmental Value", format_comma_0f min_env_value);
        ("High Risk Plants (Top 25%)", format_plain high_risk_plants)] |}.

(** A value strictly above a threshold; never so when either is NaN. *)
Definition exceeds (threshold v : option Q) : bool :=
  match v, threshold with
  | Some x, Some t => negb (Qle_bool x t)
  | _, _ => false
  end.

Definition env_header : list string :=
  [plant_name_col; owner_col; country_col; capcol; value_col;
   latitude_left_col; longitude_left_col].

Definition env_plant (name o c : string) (cap v lat lon : option Q) : PlantRecord :=
  {| plant_name := Some name; owner := Some o; country := Some c; capacity := cap;
     latitude := None; longitude := None;
     latitude_left := lat; longitude_left := lon; value := v; region := None |}.

(** Four plants with risk values 10, 20, 30, 40; the first two in country A. *)
Definition env_four : DataFrame :=
  read_csv env_header
    [env_plant "E1" "Acme" "A" (Some 100%Q) (Some 10%Q) (Some 1%Q) (Some 1%Q);
     env_plant "E2" "Acme" "A" (Some 100%Q) (Some 20%Q) (Some 2%Q) (Some 2%Q);
     env_plant "E3" "Borg" "B" (Some 100%Q) (Some 30%Q) (Some 3%Q) (Some 3%Q);
     env_plant "E4" "Borg" "B" (Some 100%Q) (Some 40%Q) (Some 4%Q) (Some 4%Q)].

(** ** Maps *)

(** The data of a map figure: the frame handed to the plotting call. *)
Record MapFig : Type := mkMap {
  map_title : string;
  map_data : DataFrame
}.

(** [df.dropna(subset=cols)]: rows with every listed cell present; a
    [KeyError] when a listed column is not in the header. *)
Fixpoint missing_col (df : DataFrame) (subset : list (string * (PlantRecord -> bool)))
  : option string :=
  match subset with
  | [] => None
  | (c, _) :: t => if has_col df c then missing_col df t else Some c
  end.

Definition dropna_subset (df : DataFrame) (subset : list (string * (PlantRecord -> bool)))
  : result DataFrame :=
  match missing_col df subset with
  | Some c => Raise (KeyError c)
  | None =>
      Ok {| columns := columns df;
            rows := filter (fun ir => forallb (fun c => snd c (snd ir)) subset) (rows df) |}
  end.

(** [df[capcol] = df[capcol].fillna(0)]. *)
Definition fillna_capacity (df : DataFrame) : result DataFrame :=
  if has_col df capcol
  then Ok {| columns := columns df;
             rows := map (fun ir =>
                       (fst ir,
                        let r := snd ir in
                        {| plant_name := plant_name r; owner := owner r;
                           country := country r;
                           capacity := match capacity r with
                                       | Some c => Some c
                                       | None => Some 0%Q
                                       end;
                           latitude := latitude r; longitude := longitude r;
                           latitude_left := latitude_left r;
                           longitude_left := longitude_left r;
                           value := value r; region := region r |})) (rows df) |}
  else Raise (KeyError capcol).

Definition create_geographic_map (df : DataFrame) (map_type : string)
  : result (option MapFig) :=
  if negb (has_col df latitude_col) || negb (has_col df longitude_col) then Ok None
  else
    match dropna_subset df [(latitude_col, fun r => is_present (latitude r));
                            (longitude_col, fun r => is_present (longitude r))] with
    | Raise e => Raise e
    | Ok df_clean =>
        if String.eqb map_type "scatter" then
          Ok (Some {| map_title := "Geographic Distribution of Operating Steel Plants";
                      map_data := df_clean |})
        else if String.eqb map_type "capacity" then
          match fillna_capacity df_clean with
          | Raise e => Raise e
          | Ok df_clean =>
              Ok (Some {| map_title := "Steel Plants by Capacity and Owner";
                          map_data := df_clean |})
          end
        else if String.eqb map_type "density" then
          Ok (Some {| map_title := "Density Heatmap of Steel Plants";
                      map_data := df_clean |})
        else Ok None
    end.

Definition create_environmental_map (df : DataFrame) (map_type : string)
  : result (option MapFig) :=
  if negb (has_col df latitude_left_col) || negb (has_col df longitude_left_col)
  then Ok None
  else
    match dropna_subset df [(latitude_left_col, fun r => is_present (latitude_left r));
                            (longitude_left_col, fun r => is_present (longitude_left r));
                            (value_col, fun r => is_present (value r))] with
    | Raise e => Raise e
    | Ok df_clean =>
        if String.eqb map_type "environmental" then
          Ok (Some {| map_title := "Environmental Risk Distribution of Steel Plants";
                      map_data := df_clean |})
        else if String.eqb map_type "capacity_env" then
          if has_col df_clean capcol then
            match fillna_capacity df_clean with
            | Raise e => Raise e
            | Ok df_clean =>
                Ok (Some {| map_title := "Steel Plants: Capacity vs Environmental Risk";
                            map_data := df_clean |})
            end
          else Ok None
        else if String.eqb map_type "density_env" then
          Ok (Some {| map_title := "Environmental Risk Density Heatmap";
                      map_data := df_clean |})
        else Ok None
    end.

(** The rows each map keeps. *)
Definition env_map_row (r : PlantRecord) : bool :=
  is_present (latitude_left r) && is_present (longitude_left r) && is_present (value r).

Definition geo_map_row (r : PlantRecord) : bool :=
  is_present (latitude r) && is_present (longitude r).

(** A table with both coordinate pairs: the second plant has no risk value,
    the third no longitude on either side. *)
Definition env_gaps : DataFrame :=
  read_csv (latitude_col :: longitude_col :: env_header)
    [mkPlant (Some "G1") (Some "Acme") (Some "A") (Some 100%Q)
       (Some 1%Q) (Some 1%Q) (Some 1%Q) (Some 1%Q) (Some 10%Q) None;
     mkPlant (Some "G2") (Some "Acme") (Some "A") None
       (Some 2%Q) (Some 2%Q) (Some 2%Q) (Some 2%Q) None None;
     mkPlant (Some "G3") (Some "Borg") (Some "B") (Some 300%Q)
       (Some 3%Q) None (Some 3%Q) None (Some 30%Q) None].

(** ** Company analysis tab *)

Definition rbind {A B} (r : result A) (k : A -> result B) : result B :=
  match r with
  | Ok a => k a
  | Raise e => Raise e
  end.

Notation "x <~ r ;; k" := (rbind r (fun x => k))
  (at level 61, r at next level, right associativity).

Definition cell_eqb (a b : option string) : bool :=
  match a, b with
  | Some x, Some y => String.eqb x y
  | None, None => true
  | _, _ => false
  end.

(** [Series.unique()] as an array: NaN, when it occurs, is one of the
    values. *)
Fixpoint unique_cells_from (seen : list (option string)) (s : Series string)
  : list (option string) :=
  match s with
  | [] => []
  | c :: t => if existsb (cell_eqb c) seen then unique_cells_from seen t
              else c :: unique_cells_from (c :: seen) t
  end.

Definition unique_cells (s : Series string) : list (option string) :=
  unique_cells_from [] s.

(** [series.isin(values)]: NaN is found when [values] holds a NaN. *)
Definition isin (s : Series string) (values : list (option string)) : list bool :=
  map (fun c => existsb (cell_eqb c) values) s.

(** What a tab puts on the page: its charts, or a message. *)
Inductive View (A : Type) : Type :=
| Plots (a : A)
| StInfo (msg : string)
| StWarning (msg : string).

Arguments Plots {A} a.
Arguments StInfo {A} msg.
Arguments StWarning {A} msg.

(** The restriction of the company table to the selection (tab 2). *)
Definition restrict_companies (company_df : CompanyFrame) (filtered_df : DataFrame)
    (selected_country selected_company : string) : result CompanyFrame :=
  company_df <~
    (if negb (String.eqb selected_company All) then
       o <~ getitem company_df owner_col company_owner ;;
       Ok (getitem_mask company_df (eq_str o selected_company))
     else Ok company_df) ;;
  if negb (String.eqb selected_country All) then
    country_companies <~
      (o <~ getitem filtered_df owner_col owner ;; Ok (unique_cells o)) ;;
    o <~ getitem company_df owner_col company_owner ;;
    Ok (getitem_mask company_df (isin o country_companies))
  else Ok company_df.

Definition company_analysis_tab (company_aggregation : option CompanyFrame)
    (filtered_df : DataFrame) (selected_country selected_company : string)
  : result (View (BarFig * BarFig * BarFig)) :=
  let agg_present :=
    match company_aggregation with
    | Some company_df => negb (empty company_df)
    | None => false
    end in
  match company_aggregation with
  | Some company_df =>
      if agg_present then
        company_df <~ restrict_companies company_df filtered_df
                        selected_country selected_company ;;
        charts <~ create_company_charts company_df ;;
        match charts with
        | Some figs => Ok (Plots figs)
        | None => Ok (StInfo "No company data available for filters.")
        end
      else Ok (StWarning "Company aggregation data not available.")
  | None => Ok (StWarning "Company aggregation data not available.")
  end.

(** ** Rankings by country and by owner *)

(** A numeric series labelled by text, as [value_counts()] and
    [groupby(...)[col].sum()] return. *)
Definition Labelled := list (string * Q).

(** The library's descending sort of a labelled series leaves the order of
    equal values open; it is taken as a parameter [sort_values] of which
    only this is assumed. *)
Definition sorts_descending (sort_values : Labelled -> Labelled) : Prop :=
  forall l, Permutation (sort_values l) l
            /\ StronglySorted (fun a b => (snd b <= snd a)%Q) (sort_values l).

Definition count_of (c : string) (s : Series string) : nat :=
  List.length (filter (str_is c) s).

(** [series.value_counts()]: one entry per distinct non-NaN value, with the
    number of its occurrences, largest first. *)
Definition value_counts (sort_values : Labelled -> Labelled) (s : Series string)
  : Labelled :=
  sort_values
    (map (fun c => (c, inject_Z (Z.of_nat (count_of c s)))) (unique (dropna s))).

(** [df.groupby(key)[col].sum()]: one entry per distinct non-NaN key, in key
    order, with the sum of the non-NaN values of its rows. *)
Definition groupby_sum (df : DataFrame) (key : PlantRecord -> option string)
    (val : PlantRecord -> option Q) : Labelled :=
  map (fun k =>
         (k, series_sum (map (fun ir => val (snd ir))
                           (filter (fun ir => str_is k (key (snd ir))) (rows df)))))
      (sorted (unique (dropna (map (fun ir => key (snd ir)) (rows df))))).

Definition bar_of (title : string) (s : Labelled) : BarFig :=
  {| bar_title := title;
     bar_x := map (fun e => Some (fst e)) s;
     bar_y := map (fun e => Some (snd e)) s |}.

Definition create_country_analysis (sort_values : Labelled -> Labelled)
    (df : DataFrame) : result BarFig :=
  c <~ getitem df country_col country ;;
  let country_counts := firstn 15 (value_counts sort_values c) in
  Ok (bar_of "Top 15 Countries by Number of Operating Steel Plants" country_counts).

(** The capacity chart of the country tab: drawn only when the table has
    the capacity column. *)
Definition country_capacity_chart (sort_values : Labelled -> Labelled)
    (filtered_df : DataFrame) : result (option BarFig) :=
  if has_col filtered_df capcol then
    if has_col filtered_df country_col then
      let country_capacity :=
        firstn 15 (sort_values (groupby_sum filtered_df country capacity)) in
      Ok (Some (bar_of "Top 15 Countries by Total Steel Capacity (ttpa)" country_capacity))
    else Raise (KeyError country_col)
  else Ok None.

(** The two tables of the data-tables tab. *)
Definition top_companies_table (sort_values : Labelled -> Labelled)
    (filtered_df : DataFrame) : option Labelled :=
  if has_col filtered_df capcol && has_col filtered_df owner_col
  then Some (firstn 10 (sort_values (groupby_sum filtered_df owner capacity)))
  else None.

Definition top_countries_table (sort_values : Labelled -> Labelled)
    (filtered_df : DataFrame) : option Labelled :=
  if has_col filtered_df country_col
  then Some (firstn 10 (value_counts sort_values
                          (map (fun ir => country (snd ir)) (rows filtered_df))))
  else None.

(** A descending sort to run the rankings with: insertion sort. *)
Fixpoint insert_desc (x : string * Q) (l : Labelled) : Labelled :=
  match l with
  | [] => [x]
  | y :: t => if Qle_bool (snd y) (snd x) then x :: l else y :: insert_desc x t
  end.

Fixpoint insertion_sort_desc (l : Labelled) : Labelled :=
  match l with
  | [] => []
  | x :: t => insert_desc x (insertion_sort_desc t)
  end.

(** ** Environmental analysis tab: the filter *)

(** The same three filters, written out again in tab 4 for the
    environmental table. *)
Definition env_filtering_logic (merged_environmental : Ref)
    (selected_country selected_company : string) (capacity_range : Z * Z) : M Ref :=
  env_df <- copy merged_environmental ;;
  env_df <-
    (if negb (String.eqb selected_country All) then
       c <- column env_df country_col country ;;
       index_by_mask env_df (eq_str c selected_country)
     else ret env_df) ;;
  env_df <-
    (if negb (String.eqb selected_company All) then
       o <- column env_df owner_col owner ;;
       index_by_mask env_df (eq_str o selected_company)
     else ret env_df) ;;
  present <- in_columns env_df capcol ;;
  if present then
    lo <- column env_df capcol capacity ;;
    hi <- column env_df capcol capacity ;;
    index_by_mask env_df
      (mask_and (ge_int lo (fst capacity_range)) (le_int hi (snd capacity_range)))
  else ret env_df.

(** What tab 4 computes from the filtered environmental table for the
    metric cards and the map. *)
Record EnvView : Type := mkEnvView {
  env_filtered : DataFrame;
  env_metrics : EnvMetrics;
  env_map : option MapFig
}.

Definition env_unavailable : string :=
  "Environmental data not available. Please ensure merged_environmental_data.csv is present in the data directory.".

Definition environmental_tab (merged_environmental : option Ref)
    (selected_country selected_company : string) (capacity_range : Z * Z)
    (env_map_type : string) : M (View EnvView) :=
  match merged_environmental with
  | None => ret (StWarning env_unavailable)
  | Some env =>
      data <- deref env ;;
      let env_present := negb (empty data) in
      if env_present then
        env_df <- env_filtering_logic env selected_country selected_company
                    capacity_range ;;
        env_df <- deref env_df ;;
        env_fig <- lift (create_environmental_map env_df env_map_type) ;;
        ret (Plots {| env_filtered := env_df;
                      env_metrics := create_environmental_metrics env_df;
                      env_map := env_fig |})
      else ret (StWarning env_unavailable)
  end.

Definition company_unavailable : string := "Company aggregation data not available.".
Definition company_no_match : string := "No company data available for filters.".

(** How a row looks after the capacity has been zero-filled. *)
Definition zero_filled (before after : nat * PlantRecord) : Prop :=
  fst after = fst before
  /\ capacity (snd after)
     = Some (match capacity (snd before) with Some c => c | None => 0%Q end)
  /\ plant_name (snd after) = plant_name (snd before)
  /\ owner (snd after) = owner (snd before)
  /\ country (snd after) = country (snd before)
  /\ latitude (snd after) = latitude (snd before)
  /\ longitude (snd after) = longitude (snd before)
  /\ latitude_left (snd after) = latitude_left (snd before)
  /\ longitude_left (snd after) = longitude_left (snd before)
  /\ value (snd after) = value (snd before)
  /\ region (snd after) = region (snd before).

(** [shown] is a top-[n] ranking of the [total] labels that satisfy
    [labelled], scored by [score]: as many entries as there are labels, up
    to [n]; no label twice; scores in descending order; each entry a label
    with its score; and no label left out scores more than one shown. *)
Definition is_top_n (n total : nat) (labelled : string -> Prop) (score : string -> Q)
    (shown : Labelled) : Prop :=
  List.length shown = Nat.min n total
  /\ NoDup (map fst shown)
  /\ StronglySorted (fun a b => (snd b <= snd a)%Q) shown
  /\ (forall k q, In (k, q) shown -> labelled k /\ q = score k)
  /\ (forall k, labelled k -> ~ In k (map fst shown) ->
      forall k' q', In (k', q') shown -> (score k <= q')%Q).

(** Total capacity of the rows whose [key] is [k]. *)
Definition capacity_total (df : DataFrame) (key : PlantRecord -> option string)
    (k : string) : Q :=
  series_sum (map (fun ir => capacity (snd ir))
                (filter (fun ir => str_is k (key (snd ir))) (rows df))).

(** Two countries with two plants each and one with a single plant. *)
Definition plants_five : DataFrame :=
  read_csv plants_header
    [plant "P1" "Acme" "A" (Some 100%Q);
     plant "P2" "Borg" "B" (Some 200%Q);
     plant "P3" "Acme" "B" (Some 300%Q);
     plant "P4" "Cyan" "C" (Some 50%Q);
     plant "P5" "Borg" "A" (Some 150%Q)].
(** ** Masks and selections as list filters *)

Lemma select_map {X} (p : X -> bool) (l : list X) :
  select l (map p l) = filter p l.
Proof.
  induction l as [|x l IH]; simpl; [reflexivity|].
  destruct (p x); rewrite IH; reflexivity.
Qed.

Lemma mask_and_map {X} (p q : X -> bool) (l : list X) :
  mask_and (map p l) (map q l) = map (fun x => p x && q x) l.
Proof.
  induction l as [|x l IH]; simpl; [reflexivity|].
  rewrite IH; reflexivity.
Qed.

Lemma filter_twice {X} (p q : X -> bool) (l : list X) :
  filter q (filter p l) = filter (fun x => p x && q x) l.
Proof.
  induction l as [|x l IH]; simpl; [reflexivity|].
  destruct (p x); simpl; [destruct (q x)|]; rewrite IH; reflexivity.
Qed.

Lemma filter_all {X} (p : X -> bool) (l : list X) :
  (forall x, In x l -> p x = true) -> filter p l = l.
Proof.
  induction l as [|x l IH]; simpl; intros H; [reflexivity|].
  rewrite (H x (or_introl eq_refl)), IH; [reflexivity|].
  intros y Hy; apply H; right; exact Hy.
Qed.

Lemma getitem_mask_eq_str {R} (df : Frame R) (field : R -> option string) (x : string) :
  getitem_mask df (eq_str (map (fun ir => field (snd ir)) (rows df)) x)
  = {| columns := columns df;
       rows := filter (fun ir => str_is x (field (snd ir))) (rows df) |}.
Proof.
  unfold getitem_mask, eq_str. rewrite map_map. f_equal.
  apply (select_map (fun ir => str_is x (field (snd ir)))).
Qed.

Lemma getitem_mask_capacity (df : DataFrame) (capacity_range : Z * Z) :
  getitem_mask df
    (mask_and (ge_int (map (fun ir => capacity (snd ir)) (rows df)) (fst capacity_range))
              (le_int (map (fun ir => capacity (snd ir)) (rows df)) (snd capacity_range)))
  = {| columns := columns df;
       rows := filter (fun ir => capacity_within capacity_range (snd ir)) (rows df) |}.
Proof.
  unfold getitem_mask, ge_int, le_int. rewrite !map_map, mask_and_map.
  rewrite select_map. f_equal. apply filter_ext. intros [i r]; simpl.
  unfold capacity_within. destruct (capacity r); reflexivity.
Qed.

(** ** Heap operations *)

Lemma nth_error_alloc (h : Heap) (df : DataFrame) :
  nth_error (h ++ [df]) (List.length h) = Some df.
Proof.
  rewrite nth_error_app2 by lia. rewrite Nat.sub_diag. reflexivity.
Qed.

Lemma nth_error_extend (h ext : Heap) (r : Ref) (df : DataFrame) :
  nth_error h r = Some df -> nth_error (h ++ ext) r = Some df.
Proof.
  intros H. rewrite nth_error_app1; [exact H|].
  apply nth_error_Some. rewrite H. discriminate.
Qed.

Lemma bind_ok {A B} (m : M A) (k : A -> M B) (h h' : Heap) (a : A) :
  m h = Ok (a, h') -> bind m k h = k a h'.
Proof. intros H. unfold bind. rewrite H. reflexivity. Qed.

Lemma copy_run (h : Heap) (r : Ref) (df : DataFrame) :
  nth_error h r = Some df -> copy r h = Ok (List.length h, h ++ [df]).
Proof. intros H. unfold copy, bind, deref, alloc. rewrite H. reflexivity. Qed.

Lemma column_run {A} (h : Heap) (r : Ref) (df : DataFrame) (col : string)
    (field : PlantRecord -> option A) :
  nth_error h r = Some df -> has_col df col = true ->
  column r col field h = Ok (map (fun ir => field (snd ir)) (rows df), h).
Proof.
  intros H Hc. unfold column, bind, deref, lift, getitem. rewrite H, Hc. reflexivity.
Qed.

Lemma index_by_mask_run (h : Heap) (r : Ref) (df : DataFrame) (mask : list bool) :
  nth_error h r = Some df ->
  index_by_mask r mask h = Ok (List.length h, h ++ [getitem_mask df mask]).
Proof. intros H. unfold index_by_mask, bind, deref, alloc. rewrite H. reflexivity. Qed.

Lemma in_columns_run (h : Heap) (r : Ref) (df : DataFrame) (col : string) :
  nth_error h r = Some df -> in_columns r col h = Ok (has_col df col, h).
Proof. intros H. unfold in_columns, bind, deref, ret. rewrite H. reflexivity. Qed.

(** One optional equality filter of [main]: run when the selection differs
    from ["All"]; the frame it leaves is a new object or the same one. *)
Lemma equality_step_run (h : Heap) (r : Ref) (df : DataFrame) (active : bool)
    (col : string) (field : PlantRecord -> option string) (x : string) :
  nth_error h r = Some df ->
  (active = true -> has_col df col = true) ->
  exists r' ext,
    (if active then
       c <- column r col field ;; index_by_mask r (eq_str c x)
     else ret r) h = Ok (r', h ++ ext)
    /\ nth_error (h ++ ext) r'
       = Some {| columns := columns df;
                 rows := filter (fun ir => if active then str_is x (field (snd ir))
                                           else true) (rows df) |}.
Proof.
  intros H Hc. destruct active.
  - exists (List.length h), [getitem_mask df (eq_str (map (fun ir => field (snd ir)) (rows df)) x)].
    split.
    + rewrite (bind_ok _ _ _ _ _ (column_run _ _ _ col field H (Hc eq_refl))).
      apply index_by_mask_run; exact H.
    + rewrite nth_error_alloc, getitem_mask_eq_str. reflexivity.
  - exists r, []. rewrite app_nil_r. split; [reflexivity|].
    rewrite H. destruct df as [cs rs]; simpl. rewrite filter_all; auto.
Qed.

Lemma capacity_step_run (h : Heap) (r : Ref) (df : DataFrame) (capacity_range : Z * Z) :
  nth_error h r = Some df ->
  exists r' ext,
    capacity_step capacity_range r h = Ok (r', h ++ ext)
    /\ nth_error (h ++ ext) r'
       = Some {| columns := columns df;
                 rows := filter (fun ir => capacity_pred df capacity_range (snd ir))
                                (rows df) |}.
Proof.
  intros H. unfold capacity_step.
  rewrite (bind_ok _ _ _ _ _ (in_columns_run _ _ _ capcol H)).
  unfold capacity_pred. destruct (has_col df capcol) eqn:Hc.
  - exists (List.length h), [getitem_mask df
      (mask_and (ge_int (map (fun ir => capacity (snd ir)) (rows df)) (fst capacity_range))
                (le_int (map (fun ir => capacity (snd ir)) (rows df)) (snd capacity_range)))].
    split.
    + rewrite (bind_ok _ _ _ _ _ (column_run _ _ _ capcol capacity H Hc)).
      rewrite (bind_ok _ _ _ _ _ (column_run _ _ _ capcol capacity H Hc)).
      apply index_by_mask_run; exact H.
    + rewrite nth_error_alloc, getitem_mask_capacity. reflexivity.
  - exists r, []. rewrite app_nil_r. split; [reflexivity|].
    rewrite H. destruct df as [cs rs]; simpl. rewrite filter_all; auto.
Qed.

(** ** What the filtering logic computes *)

Lemma filtering_logic_run (h : Heap) (df : Ref) (base : DataFrame)
    (selected_country selected_company : string) (capacity_range : Z * Z) :
  nth_error h df = Some base ->
  criteria_ok base selected_country selected_company = true ->
  exists filtered_df ext,
    filtering_logic df selected_country selected_company capacity_range h
    = Ok (filtered_df, h ++ ext)
    /\ nth_error (h ++ ext) filtered_df
       = Some {| columns := columns base;
                 rows := filter (keep base selected_country selected_company capacity_range)
                                (rows base) |}.
Proof.
  intros H Hok. unfold criteria_ok in Hok.
  apply andb_true_iff in Hok. destruct Hok as [Hco How].
  unfold filtering_logic, country_step, owner_step.
  rewrite (bind_ok _ _ _ _ _ (copy_run _ _ _ H)).
  pose proof (nth_error_alloc h base) as H1.
  destruct (equality_step_run _ _ _ (negb (String.eqb selected_country All))
              country_col country selected_country H1) as (r2 & e2 & R2 & N2).
  { intros Ha. destruct (String.eqb selected_country All); [discriminate|exact Hco]. }
  rewrite (bind_ok _ _ _ _ _ R2).
  destruct (equality_step_run _ _ _ (negb (String.eqb selected_company All))
              owner_col owner selected_company N2) as (r3 & e3 & R3 & N3).
  { intros Ha. destruct (String.eqb selected_company All); [discriminate|exact How]. }
  rewrite (bind_ok _ _ _ _ _ R3).
  destruct (capacity_step_run _ _ _ capacity_range N3) as (r4 & e4 & R4 & N4).
  exists r4, ([base] ++ e2 ++ e3 ++ e4).
  rewrite !app_assoc. split; [rewrite <- !app_assoc in *; exact R4|].
  rewrite <- !app_assoc in *. rewrite N4. cbn [columns rows]. do 2 f_equal.
  rewrite !filter_twice. apply filter_ext. intros [i r].
  unfold keep, country_pred, owner_pred, capacity_pred, has_col.
  cbn [snd columns].
  destruct (String.eqb selected_country All), (String.eqb selected_company All);
    cbn [negb]; rewrite ?andb_assoc; reflexivity.
Qed.

(** On a freshly loaded table the filter returns, and returns this frame. *)
Lemma run_filter_ok (base : DataFrame) (selected_country selected_company : string)
    (capacity_range : Z * Z) :
  criteria_ok base selected_country selected_company = true ->
  run_filter base selected_country selected_company capacity_range
  = Ok {| columns := columns base;
          rows := filter (keep base selected_country selected_company capacity_range)
                         (rows base) |}.
Proof.
  intros Hok. unfold run_filter, run_on.
  destruct (filtering_logic_run [base] 0 base selected_country selected_company
              capacity_range eq_refl Hok) as (r & ext & R & N).
  rewrite R, N. reflexivity.
Qed.

(** A selection outside the offered values makes the column lookup fail. *)
Lemma run_filter_key_error_country (base : DataFrame)
    (selected_country selected_company : string) (capacity_range : Z * Z) :
  String.eqb selected_country All = false ->
  has_col base country_col = false ->
  run_filter base selected_country selected_company capacity_range
  = Raise (KeyError country_col).
Proof.
  intros Hs Hc. unfold run_filter, run_on, filtering_logic, country_step.
  rewrite (bind_ok _ _ _ _ _ (copy_run [base] 0 base eq_refl)).
  rewrite Hs. simpl negb. cbv iota.
  unfold bind at 1. unfold bind at 1. unfold column, bind, deref, lift, getitem.
  simpl. rewrite Hc. reflexivity.
Qed.

(** ** The single filter steps on the base table *)

Lemma frame_eta {R} (df : Frame R) :
  {| columns := columns df; rows := rows df |} = df.
Proof. destruct df; reflexivity. Qed.

Lemma run_country_step (base : DataFrame) (selected_country : string) :
  String.eqb selected_country All || has_col base country_col = true ->
  run_on base (country_step selected_country)
  = Ok {| columns := columns base;
          rows := filter (fun ir => country_pred selected_country (snd ir)) (rows base) |}.
Proof.
  intros Hc. unfold run_on, country_step.
  destruct (equality_step_run [base] 0 base (negb (String.eqb selected_country All))
              country_col country selected_country eq_refl) as (r & e & R & N).
  { intros Ha. destruct (String.eqb selected_country All); [discriminate|exact Hc]. }
  rewrite R, N. do 2 f_equal. apply filter_ext. intros [i p].
  unfold country_pred. destruct (String.eqb selected_country All); reflexivity.
Qed.

Lemma run_owner_step (base : DataFrame) (selected_company : string) :
  String.eqb selected_company All || has_col base owner_col = true ->
  run_on base (owner_step selected_company)
  = Ok {| columns := columns base;
          rows := filter (fun ir => owner_pred selected_company (snd ir)) (rows base) |}.
Proof.
  intros Hc. unfold run_on, owner_step.
  destruct (equality_step_run [base] 0 base (negb (String.eqb selected_company All))
              owner_col owner selected_company eq_refl) as (r & e & R & N).
  { intros Ha. destruct (String.eqb selected_company All); [discriminate|exact Hc]. }
  rewrite R, N. do 2 f_equal. apply filter_ext. intros [i p].
  unfold owner_pred. destruct (String.eqb selected_company All); reflexivity.
Qed.

Lemma run_capacity_step (base : DataFrame) (capacity_range : Z * Z) :
  run_on base (capacity_step capacity_range)
  = Ok {| columns := columns base;
          rows := filter (fun ir => capacity_pred base capacity_range (snd ir))
                         (rows base) |}.
Proof.
  unfold run_on.
  destruct (capacity_step_run [base] 0 base capacity_range eq_refl) as (r & e & R & N).
  rewrite R, N. reflexivity.
Qed.

Lemma capacity_within_iff (capacity_range : Z * Z) (r : PlantRecord) :
  capacity_within capacity_range r = true <->
  exists c, capacity r = Some c
            /\ (inject_Z (fst capacity_range) <= c)%Q
            /\ (c <= inject_Z (snd capacity_range))%Q.
Proof.
  unfold capacity_within. destruct (capacity r) as [c|].
  - rewrite andb_true_iff, !Qle_bool_iff. split.
    + intros [H1 H2]. exists c. auto.
    + intros (c' & E & H1 & H2). injection E as <-. auto.
  - split; [discriminate|]. intros (c & E & _). discriminate.
Qed.

(** ** Observed minimum and maximum *)

Lemma Qmax2_ge_l (a b : Q) : (a <= Qmax2 a b)%Q.
Proof.
  unfold Qmax2. destruct (Qle_bool a b) eqn:E.
  - apply Qle_bool_iff; exact E.
  - apply Qle_refl.
Qed.

Lemma Qmax2_ge_r (a b : Q) : (b <= Qmax2 a b)%Q.
Proof.
  unfold Qmax2. destruct (Qle_bool a b) eqn:E.
  - apply Qle_refl.
  - apply Qlt_le_weak, Qnot_le_lt. intros H. apply Qle_bool_iff in H. congruence.
Qed.

Lemma Qmin2_le_l (a b : Q) : (Qmin2 a b <= a)%Q.
Proof.
  unfold Qmin2. destruct (Qle_bool a b) eqn:E.
  - apply Qle_refl.
  - apply Qlt_le_weak, Qnot_le_lt. intros H. apply Qle_bool_iff in H. congruence.
Qed.

Lemma Qmin2_le_r (a b : Q) : (Qmin2 a b <= b)%Q.
Proof.
  unfold Qmin2. destruct (Qle_bool a b) eqn:E.
  - apply Qle_bool_iff; exact E.
  - apply Qle_refl.
Qed.

Lemma series_max_ge (s : Series Q) (c : Q) :
  In (Some c) s -> exists m, series_max s = Some m /\ (c <= m)%Q.
Proof.
  induction s as [|[q|] s IH]; simpl; intros H; [contradiction| |].
  - destruct H as [E|H].
    + injection E as ->. destruct (series_max s) as [m|].
      * exists (Qmax2 c m). split; [reflexivity|apply Qmax2_ge_l].
      * exists c. split; [reflexivity|apply Qle_refl].
    + destruct (IH H) as (m & -> & Hm).
      exists (Qmax2 q m). split; [reflexivity|].
      eapply Qle_trans; [exact Hm|apply Qmax2_ge_r].
  - destruct H as [E|H]; [discriminate|]. exact (IH H).
Qed.

Lemma series_min_le (s : Series Q) (c : Q) :
  In (Some c) s -> exists m, series_min s = Some m /\ (m <= c)%Q.
Proof.
  induction s as [|[q|] s IH]; simpl; intros H; [contradiction| |].
  - destruct H as [E|H].
    + injection E as ->. destruct (series_min s) as [m|].
      * exists (Qmin2 c m). split; [reflexivity|apply Qmin2_le_l].
      * exists c. split; [reflexivity|apply Qle_refl].
    + destruct (IH H) as (m & -> & Hm).
      exists (Qmin2 q m). split; [reflexivity|].
      eapply Qle_trans; [apply Qmin2_le_r|exact Hm].
  - destruct H as [E|H]; [discriminate|]. exact (IH H).
Qed.

Lemma covered_capacity_within (base : DataFrame) (range : Z * Z) (ir : nat * PlantRecord) :
  covers_observed_range base range = true ->
  In ir (rows base) ->
  capacity_within range (snd ir) = is_present (capacity (snd ir)).
Proof.
  intros Hcov Hin. unfold capacity_within.
  destruct (capacity (snd ir)) as [c|] eqn:Ec; [|reflexivity].
  simpl. apply andb_true_iff in Hcov. destruct Hcov as [Hlo Hhi].
  assert (Hs : In (Some c) (map (fun ir => capacity (snd ir)) (rows base))).
  { apply in_map_iff. exists ir. auto. }
  destruct (series_min_le _ _ Hs) as (mn & Emn & Hmn).
  destruct (series_max_ge _ _ Hs) as (mx & Emx & Hmx).
  unfold observed_min, observed_max in *. rewrite Emn in Hlo. rewrite Emx in Hhi.
  apply Qle_bool_iff in Hlo. apply Qle_bool_iff in Hhi.
  apply andb_true_iff. split; apply Qle_bool_iff.
  - eapply Qle_trans; eauto.
  - eapply Qle_trans; eauto.
Qed.

(** ** Properties of the filter *)

Lemma keep_all_all (base : DataFrame) (range : Z * Z) (ir : nat * PlantRecord) :
  keep base All All range ir = capacity_pred base range (snd ir).
Proof. reflexivity. Qed.

(** C1, as stated, fails: with both selectors on ["All"] and the capacity
    range equal to the observed range [100, 100], the plant whose capacity
    is absent is dropped, so the result has one row where the base has two. *)
Lemma full_range_filter_drops_unknown_capacity :
  observed_min plants_one_unknown = Some 100%Q
  /\ observed_max plants_one_unknown = Some 100%Q
  /\ exists out,
       run_filter plants_one_unknown All All (100%Z, 100%Z) = Ok out
       /\ len out = 1 /\ len plants_one_unknown = 2
       /\ out <> plants_one_unknown.
Proof.
  split; [reflexivity|]. split; [reflexivity|].
  eexists. split; [vm_compute; reflexivity|].
  split; [reflexivity|]. split; [reflexivity|].
  intros E. apply (f_equal len) in E. vm_compute in E. discriminate.
Qed.

(** C1, amended: with both selectors on ["All"] and a capacity range that
    covers the observed range, the filter returns, in base order and with
    the header unchanged, exactly the base rows whose capacity is present
    (every row when the table has no capacity column); so it returns the
    base table itself whenever no capacity is absent. *)
Theorem full_range_filter_keeps_known_capacity
    (base : DataFrame) (range : Z * Z) :
  covers_observed_range base range = true ->
  run_filter base All All range
  = Ok {| columns := columns base;
          rows := filter (fun ir => negb (has_col base capcol)
                                    || is_present (capacity (snd ir)))
                         (rows base) |}
  /\ (has_col base capcol = false
      \/ (forall ir, In ir (rows base) -> is_present (capacity (snd ir)) = true) ->
      run_filter base All All range = Ok base).
Proof.
  intros Hcov.
  assert (Hrun : run_filter base All All range
                 = Ok {| columns := columns base;
                         rows := filter (fun ir => negb (has_col base capcol)
                                                   || is_present (capacity (snd ir)))
                                        (rows base) |}).
  { rewrite run_filter_ok by reflexivity. do 2 f_equal.
    apply filter_ext_in. intros ir Hin. rewrite keep_all_all.
    unfold capacity_pred. destruct (has_col base capcol); [|reflexivity].
    simpl. apply (covered_capacity_within base); assumption. }
  split; [exact Hrun|].
  intros Hall. rewrite Hrun. rewrite filter_all; [rewrite frame_eta; reflexivity|].
  intros ir Hin. destruct Hall as [Hc|Hp].
  - rewrite Hc. reflexivity.
  - rewrite (Hp ir Hin). apply orb_true_r.
Qed.

Lemma full_range_filter_keeps_known_capacity_witness :
  covers_observed_range plants_abc (100%Z, 300%Z) = true
  /\ run_filter plants_abc All All (100%Z, 300%Z) = Ok plants_abc.
Proof.
  split; [reflexivity|].
  apply (full_range_filter_keeps_known_capacity plants_abc (100%Z, 300%Z)).
  - reflexivity.
  - right. intros ir Hin. simpl in Hin.
    repeat (destruct Hin as [<-|Hin]; [reflexivity|]). contradiction.
Defined.

Lemma NoDup_index_unique {R} (l : list (nat * R)) (i : nat) (r r' : R) :
  NoDup (map fst l) -> In (i, r) l -> In (i, r') l -> r = r'.
Proof.
  induction l as [|[j x] l IH]; simpl; intros Hnd H1 H2; [contradiction|].
  inversion Hnd as [|? ? Hnotin Hnd']; subst.
  destruct H1 as [E1|H1], H2 as [E2|H2].
  - congruence.
  - injection E1 as -> ->. exfalso. apply Hnotin.
    apply in_map_iff. exists (i, r'). auto.
  - injection E2 as -> ->. exfalso. apply Hnotin.
    apply in_map_iff. exists (i, r). auto.
  - eapply IH; eauto.
Qed.

Lemma In_index_filter {R} (p : nat * R -> bool) (l : list (nat * R)) (i : nat) :
  In i (map fst (filter p l)) <-> exists r, In (i, r) l /\ p (i, r) = true.
Proof.
  rewrite in_map_iff. split.
  - intros ([j r] & E & H). simpl in E. subst j. apply filter_In in H.
    exists r. exact H.
  - intros (r & H & Hp). exists (i, r). split; [reflexivity|].
    apply filter_In. auto.
Qed.

(** C3: the rows the combined filter keeps are exactly the rows kept by all
    three of the country-only, owner-only and capacity-only filters, each
    applied to the base table on its own; on a table whose index labels are
    distinct, as a loaded table's are, the same holds of the sets of index
    labels. *)
Theorem filter_is_conjunctive
    (base : DataFrame) (C O : string) (R : Z * Z) :
  criteria_ok base C O = true ->
  exists out by_country by_owner by_capacity,
    run_filter base C O R = Ok out
    /\ run_on base (country_step C) = Ok by_country
    /\ run_on base (owner_step O) = Ok by_owner
    /\ run_on base (capacity_step R) = Ok by_capacity
    /\ (forall ir, In ir (rows out) <->
                   In ir (rows by_country) /\ In ir (rows by_owner)
                   /\ In ir (rows by_capacity))
    /\ (NoDup (index base) ->
        forall i, In i (index out) <->
                  In i (index by_country) /\ In i (index by_owner)
                  /\ In i (index by_capacity)).
Proof.
  intros Hok. pose proof Hok as Hok'. unfold criteria_ok in Hok'.
  apply andb_true_iff in Hok'. destruct Hok' as [Hc Ho].
  do 4 eexists.
  split; [apply run_filter_ok; exact Hok|].
  split; [apply run_country_step; exact Hc|].
  split; [apply run_owner_step; exact Ho|].
  split; [apply run_capacity_step|].
  split.
  - intros ir. cbn [rows]. rewrite !filter_In. unfold keep.
    rewrite !andb_true_iff. tauto.
  - intros Hnd i. unfold index in *. cbn [rows]. rewrite !In_index_filter.
    unfold keep. cbn [snd]. split.
    + intros (r & Hin & Hk). apply andb_true_iff in Hk. destruct Hk as [Hk H3].
      apply andb_true_iff in Hk. destruct Hk as [H1 H2].
      repeat split; exists r; auto.
    + intros ((r1 & I1 & H1) & (r2 & I2 & H2) & (r3 & I3 & H3)).
      assert (r2 = r1) by (eapply NoDup_index_unique; eauto).
      assert (r3 = r1) by (eapply NoDup_index_unique; eauto).
      subst r2 r3. exists r1. split; [exact I1|].
      rewrite H1, H2, H3. reflexivity.
Qed.

Lemma filter_is_conjunctive_witness :
  criteria_ok plants_abc "A" "Acme" = true
  /\ exists out by_country by_owner by_capacity,
    run_filter plants_abc "A" "Acme" (0%Z, 300%Z) = Ok out
    /\ run_on plants_abc (country_step "A") = Ok by_country
    /\ run_on plants_abc (owner_step "Acme") = Ok by_owner
    /\ run_on plants_abc (capacity_step (0%Z, 300%Z)) = Ok by_capacity
    /\ (forall ir, In ir (rows out) <->
                   In ir (rows by_country) /\ In ir (rows by_owner)
                   /\ In ir (rows by_capacity))
    /\ (NoDup (index plants_abc) ->
        forall i, In i (index out) <->
                  In i (index by_country) /\ In i (index by_owner)
                  /\ In i (index by_capacity)).
Proof.
  split; [reflexivity|].
  apply (filter_is_conjunctive plants_abc "A" "Acme" (0%Z, 300%Z)). reflexivity.
Defined.

(** C4: when the table has the capacity column, the capacity filter keeps
    exactly the rows whose capacity c is present with min <= c <= max, so a
    capacity equal to either bound is kept and an absent capacity is
    dropped; when the table has no capacity column the filter is skipped
    and the table is returned as it is. *)
Theorem capacity_filter_inclusive (base : DataFrame) (R : Z * Z) :
  (has_col base capcol = true ->
   exists out,
     run_on base (capacity_step R) = Ok out
     /\ columns out = columns base
     /\ rows out = filter (fun ir => capacity_within R (snd ir)) (rows base)
     /\ (forall ir, In ir (rows out) <->
           In ir (rows base)
           /\ exists c, capacity (snd ir) = Some c
                        /\ (inject_Z (fst R) <= c)%Q /\ (c <= inject_Z (snd R))%Q)
     /\ (forall ir c, In ir (rows base) -> capacity (snd ir) = Some c ->
           (fst R <= snd R)%Z ->
           (c == inject_Z (fst R))%Q \/ (c == inject_Z (snd R))%Q ->
           In ir (rows out))
     /\ (forall ir, In ir (rows base) -> capacity (snd ir) = None ->
           ~ In ir (rows out)))
  /\ (has_col base capcol = false -> run_on base (capacity_step R) = Ok base).
Proof.
  split; intros Hc.
  - eexists. split; [apply run_capacity_step|]. cbn [rows columns].
    unfold capacity_pred. rewrite Hc.
    assert (Hiff : forall ir,
      In ir (filter (fun ir => capacity_within R (snd ir)) (rows base)) <->
      In ir (rows base)
      /\ exists c, capacity (snd ir) = Some c
                   /\ (inject_Z (fst R) <= c)%Q /\ (c <= inject_Z (snd R))%Q).
    { intros ir. rewrite filter_In, capacity_within_iff. tauto. }
    split; [reflexivity|]. split; [reflexivity|]. split; [exact Hiff|]. split.
    + intros ir c Hin Ec Hle Hb. apply Hiff. split; [exact Hin|].
      exists c. split; [exact Ec|].
      assert (HleQ : (inject_Z (fst R) <= inject_Z (snd R))%Q)
        by (rewrite <- Zle_Qle; exact Hle).
      destruct Hb as [Hb|Hb]; rewrite Hb; split;
        try apply Qle_refl; exact HleQ.
    + intros ir Hin En Hout. apply Hiff in Hout.
      destruct Hout as (_ & c & Ec & _). congruence.
  - rewrite run_capacity_step. unfold capacity_pred. rewrite Hc.
    rewrite filter_all by reflexivity. rewrite frame_eta. reflexivity.
Qed.

Lemma capacity_filter_inclusive_witness :
  exists out,
    run_on plants_abc (capacity_step (100%Z, 200%Z)) = Ok out
    /\ index out = [0; 1]
    /\ run_on (getitem_mask (read_csv [owner_col] [plant "P" "Acme" "A" None]) [true])
              (capacity_step (100%Z, 200%Z))
       = Ok (getitem_mask (read_csv [owner_col] [plant "P" "Acme" "A" None]) [true]).
Proof.
  destruct (capacity_filter_inclusive plants_abc (100%Z, 200%Z)) as [Hp _].
  destruct (Hp eq_refl) as (out & Hrun & _ & Hrows & _).
  exists out. split; [exact Hrun|]. split.
  - unfold index. rewrite Hrows. reflexivity.
  - apply (capacity_filter_inclusive
             (getitem_mask (read_csv [owner_col] [plant "P" "Acme" "A" None]) [true])
             (100%Z, 200%Z)).
    reflexivity.
Defined.

(** ** Subsequences *)

Lemma filter_Subseq {X} (p : X -> bool) (l : list X) : Subseq (filter p l) l.
Proof.
  induction l as [|x l IH]; simpl; [constructor|].
  destruct (p x); constructor; exact IH.
Qed.

Lemma Subseq_In {X} (l1 l2 : list X) :
  Subseq l1 l2 -> forall x, In x l1 -> In x l2.
Proof.
  induction 1 as [|y l1 l2 _ IH|y l1 l2 _ IH]; intros x Hx.
  - exact Hx.
  - right. apply IH, Hx.
  - destruct Hx as [->|Hx]; [left; reflexivity|right; apply IH, Hx].
Qed.

Lemma Subseq_map {X Y} (f : X -> Y) (l1 l2 : list X) :
  Subseq l1 l2 -> Subseq (map f l1) (map f l2).
Proof. induction 1; simpl; constructor; assumption. Qed.

Lemma Subseq_NoDup {X} (l1 l2 : list X) :
  Subseq l1 l2 -> NoDup l2 -> NoDup l1.
Proof.
  induction 1 as [|y l1 l2 Hs IH|y l1 l2 Hs IH]; intros Hnd.
  - constructor.
  - inversion Hnd; subst. apply IH; assumption.
  - inversion Hnd as [|? ? Hnotin Hnd']; subst. constructor.
    + intros Hin. apply Hnotin. eapply Subseq_In; eauto.
    + apply IH; assumption.
Qed.

Lemma map_fst_combine {X Y} (l1 : list X) (l2 : list Y) :
  List.length l1 = List.length l2 -> map fst (combine l1 l2) = l1.
Proof.
  revert l2. induction l1 as [|x l1 IH]; intros [|y l2] Hlen; simpl in *;
    try reflexivity; try discriminate.
  f_equal. apply IH. lia.
Qed.

Lemma read_csv_index {R} (header : list string) (records : list R) :
  index (read_csv header records) = seq 0 (List.length records).
Proof.
  unfold index, read_csv. cbn [rows]. apply map_fst_combine. apply length_seq.
Qed.

Lemma read_csv_index_NoDup {R} (header : list string) (records : list R) :
  NoDup (index (read_csv header records)).
Proof. rewrite read_csv_index. apply seq_NoDup. Qed.

(** C10: whenever the selection is one the sidebar can offer, the filter
    returns a table whose rows are a subsequence of the base rows: each
    output row is a base row, the relative order is the base order, and
    index labels stay distinct, so no row of a loaded table is repeated. *)
Theorem filter_returns_subsequence
    (base : DataFrame) (C O : string) (R : Z * Z) :
  criteria_ok base C O = true ->
  exists out,
    run_filter base C O R = Ok out
    /\ columns out = columns base
    /\ Subseq (rows out) (rows base)
    /\ (forall ir, In ir (rows out) -> In ir (rows base))
    /\ (NoDup (index base) -> NoDup (index out))
    /\ (forall header records, base = read_csv header records -> NoDup (index out)).
Proof.
  intros Hok. eexists. split; [apply run_filter_ok; exact Hok|].
  cbn [rows columns]. unfold index. cbn [rows].
  pose proof (filter_Subseq (keep base C O R) (rows base)) as Hs.
  split; [reflexivity|]. split; [exact Hs|].
  split; [apply Subseq_In; exact Hs|].
  assert (Hnd : NoDup (map fst (rows base)) ->
                NoDup (map fst (filter (keep base C O R) (rows base)))).
  { apply Subseq_NoDup, Subseq_map, Hs. }
  split; [exact Hnd|].
  intros header records ->. apply Hnd. apply (read_csv_index_NoDup header records).
Qed.

Lemma filter_returns_subsequence_witness :
  criteria_ok plants_abc "A" All = true
  /\ exists out,
    run_filter plants_abc "A" All (0%Z, 300%Z) = Ok out
    /\ columns out = columns plants_abc
    /\ Subseq (rows out) (rows plants_abc)
    /\ (forall ir, In ir (rows out) -> In ir (rows plants_abc))
    /\ (NoDup (index plants_abc) -> NoDup (index out))
    /\ (forall header records, plants_abc = read_csv header records ->
        NoDup (index out)).
Proof.
  split; [reflexivity|].
  apply (filter_returns_subsequence plants_abc "A" All (0%Z, 300%Z)). reflexivity.
Defined.

(** ** The base table is never written *)

Lemma sidebar_filters_run (h : Heap) (df : Ref) (base : DataFrame) (sl : Slider) :
  nth_error h df = Some base ->
  capacity_slider base = Ok sl ->
  sidebar_filters df h
  = Ok ({| countries := selector_options base country_col country;
           companies := selector_options base owner_col owner;
           slider := sl |}, h).
Proof.
  intros H Hs. unfold sidebar_filters, bind, deref, lift, ret. rewrite H, Hs.
  reflexivity.
Qed.

Lemma main_run_run (h : Heap) (df : Ref) (base : DataFrame) (sl : Slider) (w : Selection) :
  nth_error h df = Some base ->
  capacity_slider base = Ok sl ->
  criteria_ok base (selected_country w) (selected_company w) = true ->
  exists filtered_df ext,
    main_run df w h
    = Ok (({| countries := selector_options base country_col country;
              companies := selector_options base owner_col owner;
              slider := sl |}, filtered_df), h ++ ext)
    /\ nth_error (h ++ ext) filtered_df
       = Some {| columns := columns base;
                 rows := filter (keep base (selected_country w) (selected_company w)
                                   (capacity_range w)) (rows base) |}.
Proof.
  intros H Hs Hw.
  destruct (filtering_logic_run h df base (selected_country w) (selected_company w)
              (capacity_range w) H Hw) as (f & e & R & N).
  exists f, e. split; [|exact N]. unfold main_run.
  rewrite (bind_ok _ _ _ _ _ (sidebar_filters_run h df base sl H Hs)).
  rewrite (bind_ok _ _ _ _ _ R). reflexivity.
Qed.

Lemma session_run (df : Ref) (base : DataFrame) (sl : Slider) (ws : list Selection) :
  capacity_slider base = Ok sl ->
  Forall (fun w => criteria_ok base (selected_country w) (selected_company w) = true) ws ->
  forall h, nth_error h df = Some base ->
  exists outs ext,
    session df ws h = Ok (outs, h ++ ext)
    /\ List.length outs = List.length ws
    /\ Forall (fun o => fst o
                        = {| countries := selector_options base country_col country;
                             companies := selector_options base owner_col owner;
                             slider := sl |}) outs.
Proof.
  intros Hs Hall. induction Hall as [|w ws Hw _ IH]; intros h H.
  - exists [], []. rewrite app_nil_r. repeat split. constructor.
  - destruct (main_run_run h df base sl w H Hs Hw) as (f & e1 & R1 & _).
    destruct (IH (h ++ e1) (nth_error_extend _ _ _ _ H)) as (outs & e2 & R2 & L2 & F2).
    eexists (_ :: outs), (e1 ++ e2).
    cbn [session].
    rewrite (bind_ok _ _ _ _ _ R1).
    rewrite (bind_ok _ _ _ _ _ R2). unfold ret. rewrite app_assoc.
    split; [reflexivity|]. split; [simpl; lia|].
    constructor; [reflexivity|exact F2].
Qed.

(** C7: a filter invocation only allocates: every object of the heap, the
    base table among them, holds the same rows and values afterwards; and
    over any sequence of reruns of the script on the loaded table, each
    run's country and owner option lists are those enumerated from the full
    base table, whatever was selected and filtered in the runs before. *)
Theorem filtering_never_mutates_base
    (h : Heap) (df : Ref) (base : DataFrame) (sl : Slider) (ws : list Selection) :
  nth_error h df = Some base ->
  capacity_slider base = Ok sl ->
  Forall (fun w => criteria_ok base (selected_country w) (selected_company w) = true) ws ->
  (forall C O R, criteria_ok base C O = true ->
     exists filtered_df h',
       filtering_logic df C O R h = Ok (filtered_df, h')
       /\ nth_error h' df = Some base
       /\ forall r d, nth_error h r = Some d -> nth_error h' r = Some d)
  /\ exists outs h',
       session df ws h = Ok (outs, h')
       /\ nth_error h' df = Some base
       /\ (forall r d, nth_error h r = Some d -> nth_error h' r = Some d)
       /\ List.length outs = List.length ws
       /\ Forall (fun o =>
                    countries (fst o) = selector_options base country_col country
                    /\ companies (fst o) = selector_options base owner_col owner) outs.
Proof.
  intros H Hs Hall. split.
  - intros C O R Hok.
    destruct (filtering_logic_run h df base C O R H Hok) as (f & e & Rn & _).
    exists f, (h ++ e). split; [exact Rn|].
    split; [apply nth_error_extend; exact H|].
    intros r d Hr. apply nth_error_extend; exact Hr.
  - destruct (session_run df base sl ws Hs Hall h H) as (outs & e & Rn & Ln & Fn).
    exists outs, (h ++ e). split; [exact Rn|].
    split; [apply nth_error_extend; exact H|].
    split; [intros r d Hr; apply nth_error_extend; exact Hr|].
    split; [exact Ln|].
    eapply Forall_impl; [|exact Fn]. intros o ->. split; reflexivity.
Qed.

Lemma filtering_never_mutates_base_witness :
  exists outs h',
    session 0 [mkSelection "A" All (0%Z, 300%Z); mkSelection "B" "Acme" (0%Z, 150%Z)]
      [plants_abc] = Ok (outs, h')
    /\ nth_error h' 0 = Some plants_abc
    /\ (forall r d, nth_error [plants_abc] r = Some d -> nth_error h' r = Some d)
    /\ List.length outs = 2
    /\ Forall (fun o =>
                 countries (fst o) = selector_options plants_abc country_col country
                 /\ companies (fst o) = selector_options plants_abc owner_col owner) outs.
Proof.
  apply (filtering_never_mutates_base [plants_abc] 0 plants_abc
           (mkSlider 0%Z 300%Z (0%Z, 300%Z))
           [mkSelection "A" All (0%Z, 300%Z); mkSelection "B" "Acme" (0%Z, 150%Z)]).
  - reflexivity.
  - reflexivity.
  - repeat constructor.
Defined.

(** ** The capacity slider *)

(** C8, as stated, fails: on the table with capacities 100, 200, 300 the
    observed minimum is 100 but the slider's lower bound is 0; and on a
    table whose only capacity is 100.5 the upper bound is 100. *)
Lemma slider_bounds_are_not_the_observed_range :
  observed_min plants_abc = Some 100%Q
  /\ (exists sl, capacity_slider plants_abc = Ok sl
                 /\ min_value sl = 0%Z
                 /\ ~ (inject_Z (min_value sl) == 100)%Q)
  /\ observed_max plants_fractional = Some (201 # 2)%Q
  /\ (exists sl, capacity_slider plants_fractional = Ok sl
                 /\ max_value sl = 100%Z
                 /\ ~ (inject_Z (max_value sl) == 201 # 2)%Q).
Proof.
  split; [reflexivity|]. split.
  - eexists. split; [vm_compute; reflexivity|]. split; [reflexivity|].
    intros E. vm_compute in E. discriminate.
  - split; [reflexivity|].
    eexists. split; [vm_compute; reflexivity|]. split; [reflexivity|].
    intros E. vm_compute in E. discriminate.
Qed.

Lemma trunc_bounds (m : Q) :
  (0 <= m)%Q ->
  (inject_Z (Z.quot (Qnum m) (Zpos (Qden m))) <= m)%Q
  /\ (m < inject_Z (Z.quot (Qnum m) (Zpos (Qden m)) + 1))%Q.
Proof.
  destruct m as [n d]. unfold Qle, Qlt, inject_Z. cbn [Qnum Qden].
  rewrite !Z.mul_1_r. intros Hn.
  rewrite Z.quot_div_nonneg by lia.
  pose proof (Z.mul_div_le n (Zpos d) ltac:(lia)).
  pose proof (Z.mul_succ_div_gt n (Zpos d) ltac:(lia)).
  split; lia.
Qed.

(** C8, amended: the lower bound of the capacity slider is the constant 0
    and its default selection is the whole slider; the upper bound comes
    from the data: it is the observed maximum capacity truncated to an
    integer (so within one unit below the maximum when that is not
    negative), and it is 1 when the table has no capacity column. *)
Theorem slider_bounds_from_data (base : DataFrame) :
  (has_col base capcol = true ->
   forall m, observed_max base = Some m ->
   exists sl,
     capacity_slider base = Ok sl
     /\ min_value sl = 0%Z
     /\ max_value sl = Z.quot (Qnum m) (Zpos (Qden m))
     /\ slider_value sl = (0%Z, max_value sl)
     /\ ((0 <= m)%Q ->
         (inject_Z (max_value sl) <= m)%Q /\ (m < inject_Z (max_value sl + 1))%Q))
  /\ (has_col base capcol = false ->
      capacity_slider base
      = Ok {| min_value := 0; max_value := 1; slider_value := (0%Z, 1%Z) |}).
Proof.
  split.
  - intros Hc m Hm. unfold capacity_slider, cap_max. rewrite Hc.
    unfold observed_max in Hm. rewrite Hm. cbn [int_].
    eexists. split; [reflexivity|]. cbn [min_value max_value slider_value].
    repeat split; try reflexivity; apply trunc_bounds; assumption.
  - intros Hc. unfold capacity_slider, cap_max. rewrite Hc. reflexivity.
Qed.

Lemma slider_bounds_from_data_witness :
  (exists sl,
     capacity_slider plants_fractional = Ok sl
     /\ min_value sl = 0%Z
     /\ max_value sl = 100%Z
     /\ slider_value sl = (0%Z, max_value sl)
     /\ ((0 <= 201 # 2)%Q ->
         (inject_Z (max_value sl) <= 201 # 2)%Q
         /\ (201 # 2 < inject_Z (max_value sl + 1))%Q))
  /\ capacity_slider (read_csv [owner_col] [plant "P" "Acme" "A" None])
     = Ok {| min_value := 0; max_value := 1; slider_value := (0%Z, 1%Z) |}.
Proof.
  split.
  - apply (proj1 (slider_bounds_from_data plants_fractional) eq_refl (201 # 2)%Q).
    reflexivity.
  - apply (proj2 (slider_bounds_from_data
                    (read_csv [owner_col] [plant "P" "Acme" "A" None]))).
    reflexivity.
Defined.

(** ** Metrics summary *)

(** The spec's worked example: countries A, A, B with capacities 100, 200,
    300, filtered to country A. *)
Example metrics_after_country_filter :
  exists out,
    run_filter plants_abc "A" All (0%Z, 300%Z) = Ok out
    /\ map (fun ir => capacity (snd ir)) (rows out) = [Some 100%Q; Some 200%Q]
    /\ cards (create_metrics_row out)
       = [("Total Operating Plants", "2");
          ("Total Global Capacity", "300 ttpa");
          ("Average Plant Capacity", "150 ttpa");
          ("Countries with Plants", "1")].
Proof. eexists. split; [vm_compute; reflexivity|]. split; reflexivity. Qed.

(** A metric whose column is not in the table is the constant 0. *)
Lemma metrics_absent_columns (df : DataFrame) :
  (has_col df capcol = false ->
   tc (create_metrics_row df) = PyInt 0 /\ avgc (create_metrics_row df) = PyInt 0)
  /\ (has_col df country_col = false -> ncountries (create_metrics_row df) = 0).
Proof.
  unfold create_metrics_row; cbn [tc avgc ncountries].
  split; intros ->; auto.
Qed.

(** On a table with no row the count, the capacity sum and the number of
    countries are 0. *)
Lemma metrics_empty_zero (df : DataFrame) :
  rows df = [] ->
  n_plants (create_metrics_row df) = 0
  /\ format_comma_0f (tc (create_metrics_row df)) = "0"
  /\ ncountries (create_metrics_row df) = 0.
Proof.
  intros E. unfold create_metrics_row, len; cbn [n_plants tc ncountries].
  rewrite E. cbn [map List.length].
  split; [reflexivity|]. split.
  - destruct (has_col df capcol); reflexivity.
  - destruct (has_col df country_col); reflexivity.
Qed.

(** The mean of the capacity column of a table with no row is NaN, and the
    card shows it as such. *)
Lemma metrics_empty_mean (df : DataFrame) :
  rows df = [] -> has_col df capcol = true ->
  avgc (create_metrics_row df) = PyFloat None
  /\ In ("Average Plant Capacity", "nan ttpa") (cards (create_metrics_row df)).
Proof.
  intros E Hc. unfold create_metrics_row; cbn [avgc cards].
  rewrite E, Hc. cbn [map]. split; [reflexivity|].
  right. right. left. reflexivity.
Qed.

(** C6: on the empty table an over-narrow filter leaves (header intact, no
    row) the average-capacity card reads "nan ttpa" where the claim
    requires 0; the other three cards read 0. *)
Lemma metrics_row_on_empty_table :
  avgc (create_metrics_row plants_none) = PyFloat None
  /\ cards (create_metrics_row plants_none)
     = [("Total Operating Plants", "0");
        ("Total Global Capacity", "0 ttpa");
        ("Average Plant Capacity", "nan ttpa");
        ("Countries with Plants", "0")].
Proof. split; reflexivity. Qed.

(** The empty table above is what the filter returns for the selection
    country B, owner Borg on the three-plant example. *)
Example filter_can_return_empty_table :
  run_filter plants_abc "B" "Borg" (0%Z, 300%Z) = Ok plants_none.
Proof. reflexivity. Qed.

(** ** Company charts *)

Lemma has_col_head {R} (n : nat) (df : Frame R) (c : string) :
  has_col (head n df) c = has_col df c.
Proof. reflexivity. Qed.

(** What the three charts hold: the first 20 rows of the table handed in,
    in the order they came. *)
Lemma company_charts_are_head (company_df : CompanyFrame) :
  empty company_df = false ->
  has_col company_df owner_col = true ->
  has_col company_df total_capacity_col = true ->
  has_col company_df number_of_plants_col = true ->
  has_col company_df number_of_countries_col = true ->
  exists charts,
    create_company_charts company_df = Ok (Some charts)
    /\ forall m,
         List.length (bar_y (chart_of m charts)) <= 20
         /\ bar_x (chart_of m charts)
            = map (fun ir => company_owner (snd ir)) (firstn 20 (rows company_df))
         /\ bar_y (chart_of m charts)
            = map (fun ir => match m with
                             | TotalCapacity => total_capacity (snd ir)
                             | PlantCount => number_of_plants (snd ir)
                             | CountryCount => number_of_countries (snd ir)
                             end) (firstn 20 (rows company_df)).
Proof.
  intros He Ho Hc Hp Hn. unfold create_company_charts, px_bar.
  rewrite He, !has_col_head, Ho, Hc, Hp, Hn. cbn [andb].
  eexists. split; [reflexivity|].
  intros m. destruct m; cbn [chart_of bar_x bar_y head rows];
    rewrite length_map; (split; [apply firstn_le_length|split; reflexivity]).
Qed.

(** C2: on a two-company table listed by total capacity, the chart titled
    "Top 20 Companies by Number of Operating Steel Plants" shows the bars
    1, 5 in input order: the table is cut with [head(20)] and never sorted
    by the requested metric. *)
Lemma company_ranking_keeps_input_order :
  exists charts,
    create_company_charts companies_two = Ok (Some charts)
    /\ bar_title (chart_of PlantCount charts)
       = "Top 20 Companies by Number of Operating Steel Plants"
    /\ bar_x (chart_of PlantCount charts) = [Some "Acme"; Some "Borg"]
    /\ bar_y (chart_of PlantCount charts) = [Some 1%Q; Some 5%Q]
    /\ descending (bar_y (chart_of PlantCount charts)) = false.
Proof. eexists. split; [reflexivity|]. repeat split. Qed.

(** ** The percentile lies among the values *)

Lemma dropna_In {A} (s : Series A) (a : A) : In a (dropna s) <-> In (Some a) s.
Proof.
  induction s as [|[b|] s IH]; simpl.
  - tauto.
  - rewrite IH. split; intros [E|H]; auto; left; congruence.
  - rewrite IH. split; [auto|]. intros [E|H]; [discriminate|exact H].
Qed.

Lemma insert_Q_In (x y : Q) (l : list Q) : In y (insert_Q x l) <-> y = x \/ In y l.
Proof.
  induction l as [|z l IH]; simpl.
  - intuition.
  - destruct (Qle_bool x z); simpl; [intuition|]. rewrite IH. intuition.
Qed.

Lemma sort_Q_In (y : Q) (l : list Q) : In y (sort_Q l) <-> In y l.
Proof.
  induction l as [|x l IH]; simpl; [tauto|].
  rewrite insert_Q_In, IH. intuition.
Qed.

Lemma insert_Q_sorted (x : Q) (l : list Q) :
  StronglySorted Qle l -> StronglySorted Qle (insert_Q x l).
Proof.
  induction 1 as [|z l Hs IH Hz]; simpl.
  - constructor; constructor.
  - destruct (Qle_bool x z) eqn:E.
    + apply Qle_bool_iff in E. constructor.
      * constructor; assumption.
      * constructor; [exact E|].
        eapply Forall_impl; [|exact Hz]. intros a Ha. eapply Qle_trans; eauto.
    + assert (Hzx : (z <= x)%Q).
      { apply Qlt_le_weak, Qnot_le_lt. intros H. apply Qle_bool_iff in H. congruence. }
      constructor; [exact IH|].
      apply Forall_forall. intros a Ha. apply insert_Q_In in Ha.
      destruct Ha as [->|Ha]; [exact Hzx|].
      rewrite Forall_forall in Hz. apply Hz, Ha.
Qed.

Lemma sort_Q_sorted (l : list Q) : StronglySorted Qle (sort_Q l).
Proof.
  induction l as [|x l IH]; simpl; [constructor|].
  apply insert_Q_sorted, IH.
Qed.

Lemma sorted_nth_le (l : list Q) (d : Q) :
  StronglySorted Qle l ->
  forall i j, i <= j -> j < List.length l -> (nth i l d <= nth j l d)%Q.
Proof.
  induction 1 as [|z l Hs IH Hz]; intros i j Hij Hj; simpl in Hj; [lia|].
  destruct i as [|i], j as [|j]; simpl.
  - apply Qle_refl.
  - rewrite Forall_forall in Hz. apply Hz, nth_In. lia.
  - lia.
  - apply IH; lia.
Qed.

Lemma interpolation_between (a b g : Q) :
  (a <= b)%Q -> (0 <= g)%Q -> (g <= 1)%Q ->
  (a <= a + (b - a) * g)%Q /\ (a + (b - a) * g <= b)%Q.
Proof.
  intros Hab Hg0 Hg1.
  assert (H0 : (0 <= (b - a) * g)%Q) by (apply Qmult_le_0_compat; [lra|exact Hg0]).
  assert (H1 : (0 <= (b - a) * (1 - g))%Q) by (apply Qmult_le_0_compat; lra).
  split; [lra|].
  assert (E : ((b - a) * (1 - g) == (b - a) - (b - a) * g)%Q) by ring.
  rewrite E in H1. lra.
Qed.

(** For a fraction [q] in [[0, 1]], the quantile of a series with at least
    one value lies between two of its values. *)
Lemma quantile_between (s : Series Q) (q p : Q) :
  (0 <= q)%Q -> (q <= 1)%Q ->
  quantile s q = Some p ->
  exists a b, In (Some a) s /\ In (Some b) s /\ (a <= p)%Q /\ (p <= b)%Q.
Proof.
  intros Hq0 Hq1. unfold quantile.
  pose proof (sort_Q_sorted (dropna s)) as Hs.
  assert (Hin : forall y, In y (sort_Q (dropna s)) -> In (Some y) s).
  { intros y Hy. apply dropna_In, sort_Q_In, Hy. }
  destruct (sort_Q (dropna s)) as [|x0 v] eqn:Ev; [discriminate|].
  set (l := x0 :: v) in *.
  set (n := List.length l).
  set (pos := (q * inject_Z (Z.of_nat (n - 1)))%Q).
  set (k := Z.to_nat (Qfloor pos)).
  intros E.
  assert (Ep : p = Qred (nth k l x0
                         + (nth (Nat.min (k + 1) (n - 1)) l x0 - nth k l x0)
                           * (pos - inject_Z (Qfloor pos))))
    by (cbv zeta in E; congruence).
  clear E.
  assert (Hn : 1 <= n) by (unfold n, l; simpl; lia).
  assert (Hm : (0 <= inject_Z (Z.of_nat (n - 1)))%Q).
  { rewrite <- (Zle_Qle 0). lia. }
  assert (Hpos0 : (0 <= pos)%Q) by (apply Qmult_le_0_compat; assumption).
  assert (Hpos1 : (pos <= inject_Z (Z.of_nat (n - 1)))%Q).
  { unfold pos.
    assert (H : (0 <= (1 - q) * inject_Z (Z.of_nat (n - 1)))%Q)
      by (apply Qmult_le_0_compat; [lra|exact Hm]).
    assert (E : ((1 - q) * inject_Z (Z.of_nat (n - 1))
                 == inject_Z (Z.of_nat (n - 1)) - q * inject_Z (Z.of_nat (n - 1)))%Q)
      by ring.
    rewrite E in H. lra. }
  assert (Hf0 : (0 <= Qfloor pos)%Z).
  { change 0%Z with (Qfloor 0). apply Qfloor_resp_le, Hpos0. }
  assert (Hf1 : (Qfloor pos <= Z.of_nat (n - 1))%Z).
  { rewrite <- (Qfloor_Z (Z.of_nat (n - 1))). apply Qfloor_resp_le, Hpos1. }
  assert (Hk : k <= n - 1) by (unfold k; lia).
  pose proof (Qfloor_le pos) as Hg0.
  pose proof (Qlt_floor pos) as Hg1.
  assert (Hg1' : (pos - inject_Z (Qfloor pos) <= 1)%Q).
  { rewrite inject_Z_plus in Hg1. change (inject_Z 1) with 1%Q in Hg1. lra. }
  assert (Hlu : (nth k l x0 <= nth (Nat.min (k + 1) (n - 1)) l x0)%Q).
  { apply sorted_nth_le; [exact Hs| |]; fold n; lia. }
  destruct (interpolation_between _ _ (pos - inject_Z (Qfloor pos)) Hlu
              ltac:(lra) Hg1') as [Ha Hb].
  exists (nth k l x0), (nth (Nat.min (k + 1) (n - 1)) l x0).
  split; [apply Hin, nth_In; fold n; lia|].
  split; [apply Hin, nth_In; fold n; lia|].
  rewrite Ep. split; rewrite Qred_correct; assumption.
Qed.

(** ** Environmental metrics *)

Lemma exceeds_iff (threshold v : option Q) :
  exceeds threshold v = true <->
  exists x t, v = Some x /\ threshold = Some t /\ (t < x)%Q.
Proof.
  unfold exceeds. destruct v as [x|], threshold as [t|].
  - rewrite negb_true_iff. split.
    + intros H. exists x, t. repeat split. apply Qnot_le_lt. intros Hle.
      apply Qle_bool_iff in Hle. congruence.
    + intros (x' & t' & Ex & Et & Hlt). injection Ex as <-. injection Et as <-.
      destruct (Qle_bool x t) eqn:E; [|reflexivity].
      apply Qle_bool_iff in E. exfalso. exact (Qlt_not_le _ _ Hlt E).
  - split; [discriminate|]. intros (x' & t' & _ & Et & _). discriminate.
  - split; [discriminate|]. intros (x' & t' & Ex & _). discriminate.
  - split; [discriminate|]. intros (x' & t' & Ex & _). discriminate.
Qed.

Lemma gt_float_select (df : DataFrame) (t : option Q) :
  select (rows df) (gt_float (map (fun ir => value (snd ir)) (rows df)) t)
  = filter (fun ir => exceeds t (value (snd ir))) (rows df).
Proof.
  unfold gt_float. rewrite map_map.
  apply (select_map (fun ir => exceeds t (value (snd ir)))).
Qed.

(** C5: for a table with a value column, the high-risk count is the number
    of its rows whose value is strictly greater than the 75th percentile of
    that table's own value column; on the values 10, 20, 30, 40 the
    percentile is 32.5 and the count 1; and after filtering that table to
    country A (values 10, 20) the percentile is recomputed as 17.5, giving
    a count of 1 where the unfiltered threshold 32.5 would give 0. *)
Theorem high_risk_count_uses_own_percentile (df : DataFrame) :
  has_col df value_col = true ->
  (let p75 := quantile (map (fun ir => value (snd ir)) (rows df)) (3 # 4) in
   high_risk_plants (create_environmental_metrics df)
   = List.length (filter (fun ir => exceeds p75 (value (snd ir))) (rows df))
   /\ forall ir : nat * PlantRecord,
        exceeds p75 (value (snd ir)) = true <->
        exists x t, value (snd ir) = Some x /\ p75 = Some t /\ (t < x)%Q)
  /\ quantile [Some 10%Q; Some 20%Q; Some 30%Q; Some 40%Q] (3 # 4) = Some (65 # 2)%Q
  /\ high_risk_plants (create_environmental_metrics env_four) = 1
  /\ exists out,
       run_filter env_four "A" All (0%Z, 100%Z) = Ok out
       /\ quantile (map (fun ir => value (snd ir)) (rows out)) (3 # 4) = Some (35 # 2)%Q
       /\ high_risk_plants (create_environmental_metrics out) = 1
       /\ List.length (filter (fun ir => exceeds (Some (65 # 2)%Q) (value (snd ir)))
                         (rows out)) = 0.
Proof.
  intros Hc. split; [|split; [reflexivity|split; [reflexivity|]]].
  - cbv zeta. split.
    + unfold create_environmental_metrics; cbn [high_risk_plants].
      rewrite Hc. unfold len, getitem_mask; cbn [rows].
      rewrite gt_float_select. reflexivity.
    + intros ir. apply exceeds_iff.
  - eexists. split; [vm_compute; reflexivity|]. repeat split.
Qed.

Lemma high_risk_count_uses_own_percentile_witness :
  has_col env_four value_col = true
  /\ high_risk_plants (create_environmental_metrics env_four)
     = List.length
         (filter (fun ir => exceeds (quantile (map (fun ir => value (snd ir))
                                                 (rows env_four)) (3 # 4))
                              (value (snd ir)))
            (rows env_four)).
Proof.
  split; [reflexivity|].
  exact (proj1 (proj1 (high_risk_count_uses_own_percentile env_four eq_refl))).
Defined.

(** ** Maps *)

Lemma is_present_iff {A} (c : option A) : is_present c = true <-> c <> None.
Proof. destruct c; simpl; split; congruence. Qed.

Lemma env_map_row_iff (r : PlantRecord) :
  env_map_row r = true <->
  latitude_left r <> None /\ longitude_left r <> None /\ value r <> None.
Proof.
  unfold env_map_row. rewrite !andb_true_iff, !is_present_iff. tauto.
Qed.

Lemma geo_map_row_iff (r : PlantRecord) :
  geo_map_row r = true <-> latitude r <> None /\ longitude r <> None.
Proof.
  unfold geo_map_row. rewrite andb_true_iff, !is_present_iff. tauto.
Qed.

Lemma fillna_capacity_index (df out : DataFrame) :
  fillna_capacity df = Ok out -> columns out = columns df /\ index out = index df.
Proof.
  unfold fillna_capacity. destruct (has_col df capcol); [|discriminate].
  intros E. injection E as <-. unfold index; cbn [rows columns].
  rewrite map_map. split; reflexivity.
Qed.

Lemma fillna_capacity_ok (df : DataFrame) :
  has_col df capcol = true -> exists out, fillna_capacity df = Ok out.
Proof. intros Hc. unfold fillna_capacity. rewrite Hc. eexists. reflexivity. Qed.

Lemma env_map_clean (df : DataFrame) :
  has_col df latitude_left_col = true ->
  has_col df longitude_left_col = true ->
  has_col df value_col = true ->
  dropna_subset df [(latitude_left_col, fun r => is_present (latitude_left r));
                    (longitude_left_col, fun r => is_present (longitude_left r));
                    (value_col, fun r => is_present (value r))]
  = Ok {| columns := columns df;
          rows := filter (fun ir => env_map_row (snd ir)) (rows df) |}.
Proof.
  intros H1 H2 H3. unfold dropna_subset, missing_col. rewrite H1, H2, H3.
  do 2 f_equal. apply filter_ext. intros [i r]. unfold env_map_row.
  cbn [forallb snd]. rewrite andb_true_r, andb_assoc. reflexivity.
Qed.

Lemma geo_map_clean (df : DataFrame) :
  has_col df latitude_col = true ->
  has_col df longitude_col = true ->
  dropna_subset df [(latitude_col, fun r => is_present (latitude r));
                    (longitude_col, fun r => is_present (longitude r))]
  = Ok {| columns := columns df;
          rows := filter (fun ir => geo_map_row (snd ir)) (rows df) |}.
Proof.
  intros H1 H2. unfold dropna_subset, missing_col. rewrite H1, H2.
  do 2 f_equal. apply filter_ext. intros [i r]. unfold geo_map_row.
  cbn [forallb snd]. rewrite andb_true_r. reflexivity.
Qed.

(** The plant map plots the rows with both coordinates, whatever else is
    missing in them. *)
Lemma geographic_map_rows (df : DataFrame) (map_type : string) (fig : MapFig) :
  create_geographic_map df map_type = Ok (Some fig) ->
  index (map_data fig) = map fst (filter (fun ir => geo_map_row (snd ir)) (rows df)).
Proof.
  unfold create_geographic_map.
  destruct (has_col df latitude_col) eqn:H1; [|discriminate].
  destruct (has_col df longitude_col) eqn:H2; [|discriminate].
  cbn [negb orb]. rewrite (geo_map_clean df H1 H2).
  destruct (String.eqb map_type "scatter").
  { intros E. injection E as <-. reflexivity. }
  destruct (String.eqb map_type "capacity").
  { destruct (fillna_capacity _) as [d|e] eqn:F; [|discriminate].
    intros E. injection E as <-. cbn [map_data].
    apply fillna_capacity_index in F. destruct F as [_ ->]. reflexivity. }
  destruct (String.eqb map_type "density"); [|discriminate].
  intros E. injection E as <-. reflexivity.
Qed.

(** C9: on an environmental table (left-hand coordinates and value in the
    header) the environmental map is built, and the rows it plots are
    exactly the rows with [latitude_left], [longitude_left] and [value] all
    present, in table order; a row with both coordinates and no value is
    dropped, whereas the plant map keeps every row that has its two
    coordinates. *)
Theorem environmental_map_drops_missing_value (df : DataFrame) (map_type : string) :
  has_col df latitude_left_col = true ->
  has_col df longitude_left_col = true ->
  has_col df value_col = true ->
  (exists out,
     create_environmental_map df map_type = Ok out
     /\ (In map_type ["environmental"; "density_env"]
         \/ (map_type = "capacity_env" /\ has_col df capcol = true) ->
         out <> None)
     /\ forall fig, out = Some fig ->
          columns (map_data fig) = columns df
          /\ index (map_data fig)
             = map fst (filter (fun ir => env_map_row (snd ir)) (rows df))
          /\ (map_type <> "capacity_env" ->
              rows (map_data fig) = filter (fun ir => env_map_row (snd ir)) (rows df)))
  /\ (forall r, env_map_row r = true <->
        latitude_left r <> None /\ longitude_left r <> None /\ value r <> None)
  /\ (forall geo_type fig,
        create_geographic_map df geo_type = Ok (Some fig) ->
        index (map_data fig)
        = map fst (filter (fun ir => geo_map_row (snd ir)) (rows df)))
  /\ (forall r, geo_map_row r = true <-> latitude r <> None /\ longitude r <> None).
Proof.
  intros H1 H2 H3.
  split; [|split; [exact env_map_row_iff|split;
                   [intros g f; apply geographic_map_rows|exact geo_map_row_iff]]].
  unfold create_environmental_map. rewrite H1, H2. cbn [negb orb].
  rewrite (env_map_clean df H1 H2 H3).
  destruct (String.eqb map_type "environmental") eqn:E1.
  { eexists. split; [reflexivity|]. split; [discriminate|].
    intros fig E. injection E as <-. repeat split. }
  destruct (String.eqb map_type "capacity_env") eqn:E2.
  { apply String.eqb_eq in E2. subst map_type.
    change (has_col {| columns := columns df;
                       rows := filter (fun ir => env_map_row (snd ir)) (rows df) |} capcol)
      with (has_col df capcol).
    destruct (has_col df capcol) eqn:Hc.
    - destruct (fillna_capacity_ok
                  {| columns := columns df;
                     rows := filter (fun ir => env_map_row (snd ir)) (rows df) |} Hc)
        as [d F].
      rewrite F. eexists. split; [reflexivity|]. split; [discriminate|].
      intros fig E. injection E as <-. cbn [map_data].
      apply fillna_capacity_index in F. destruct F as [Fc Fi].
      split; [exact Fc|]. split; [exact Fi|]. intros N. contradiction.
    - eexists. split; [reflexivity|]. split.
      + intros [[E|[E|[]]]|[_ E]]; discriminate.
      + intros fig E. discriminate. }
  destruct (String.eqb map_type "density_env") eqn:E3.
  { eexists. split; [reflexivity|]. split; [discriminate|].
    intros fig E. injection E as <-. repeat split. }
  eexists. split; [reflexivity|]. split.
  - intros [[<-|[<-|[]]]|[-> _]]; discriminate.
  - intros fig E. discriminate.
Qed.

Lemma environmental_map_drops_missing_value_witness :
  (exists fig,
     create_environmental_map env_gaps "environmental" = Ok (Some fig)
     /\ index (map_data fig) = [0])
  /\ (exists fig,
        create_geographic_map env_gaps "scatter" = Ok (Some fig)
        /\ index (map_data fig) = [0; 1]).
Proof.
  destruct (environmental_map_drops_missing_value env_gaps "environmental"
              eq_refl eq_refl eq_refl) as ((out & Hrun & Hsome & Hrows) & _ & Hgeo & _).
  split.
  - destruct out as [fig|].
    + exists fig. split; [exact Hrun|].
      destruct (Hrows fig eq_refl) as (_ & Hi & _). rewrite Hi. reflexivity.
    + exfalso. apply Hsome; [|reflexivity]. left. left. reflexivity.
  - eexists. split; [reflexivity|].
    rewrite (Hgeo "scatter" _ eq_refl). reflexivity.
Defined.

(** ** The selector option lists *)

Lemma unique_from_In (seen l : list string) (x : string) :
  In x (unique_from seen l) <-> In x l /\ ~ In x seen.
Proof.
  revert seen. induction l as [|y l IH]; intros seen; simpl; [tauto|].
  destruct (existsb (String.eqb y) seen) eqn:E.
  - apply existsb_exists in E. destruct E as (z & Hz & Ez).
    apply String.eqb_eq in Ez. subst z. rewrite IH. split.
    + intros [H1 H2]. auto.
    + intros [[->|H1] H2]; [contradiction|auto].
  - assert (Hy : ~ In y seen).
    { intros H. assert (existsb (String.eqb y) seen = true); [|congruence].
      apply existsb_exists. exists y. split; [exact H|apply String.eqb_refl]. }
    simpl. rewrite IH. simpl. split.
    + intros [->|[H1 H2]]; [auto|]. split; [auto|]. intros H. apply H2. auto.
    + intros [[->|H1] H2]; [auto|].
      destruct (string_dec y x) as [->|N]; [auto|]. right. split; [exact H1|].
      intros [E'|H]; [congruence|contradiction].
Qed.

Lemma unique_from_NoDup (seen l : list string) : NoDup (unique_from seen l).
Proof.
  revert seen. induction l as [|y l IH]; intros seen; simpl; [constructor|].
  destruct (existsb (String.eqb y) seen); [apply IH|].
  constructor; [|apply IH].
  rewrite unique_from_In. intros [_ H]. apply H. left. reflexivity.
Qed.

Lemma insert_str_In (x y : string) (l : list string) :
  In y (insert_str x l) <-> y = x \/ In y l.
Proof.
  induction l as [|z l IH]; simpl.
  - intuition.
  - destruct (String.leb x z); simpl; [intuition|]. rewrite IH. intuition.
Qed.

Lemma sorted_In (y : string) (l : list string) : In y (sorted l) <-> In y l.
Proof.
  induction l as [|x l IH]; simpl; [tauto|].
  rewrite insert_str_In, IH. intuition.
Qed.

Lemma insert_str_NoDup (x : string) (l : list string) :
  ~ In x l -> NoDup l -> NoDup (insert_str x l).
Proof.
  induction l as [|z l IH]; simpl; intros Hx Hnd.
  - constructor; [intros []|constructor].
  - destruct (String.leb x z).
    + constructor; [simpl; exact Hx|exact Hnd].
    + inversion Hnd as [|? ? Hz Hnd']; subst. constructor.
      * rewrite insert_str_In. intros [->|H]; [apply Hx; left; reflexivity|].
        contradiction.
      * apply IH; [intros H; apply Hx; right; exact H|exact Hnd'].
Qed.

Lemma sorted_NoDup (l : list string) : NoDup l -> NoDup (sorted l).
Proof.
  induction 1 as [|x l Hx Hnd IH]; simpl; [constructor|].
  apply insert_str_NoDup; [rewrite sorted_In; exact Hx|exact IH].
Qed.

Lemma insert_str_Sorted (x : string) (l : list string) :
  Sorted (fun a b => String.leb a b = true) l ->
  Sorted (fun a b => String.leb a b = true) (insert_str x l).
Proof.
  induction 1 as [|z l Hs IH Hz]; simpl.
  - constructor; constructor.
  - destruct (String.leb x z) eqn:E.
    + constructor; [constructor; assumption|constructor; exact E].
    + constructor; [exact IH|].
      assert (Hzx : String.leb z x = true).
      { destruct (String.leb_total x z) as [H|H]; [congruence|exact H]. }
      destruct l as [|w l]; simpl.
      * constructor; exact Hzx.
      * inversion Hz; subst. destruct (String.leb x w); constructor; assumption.
Qed.

Lemma sorted_Sorted (l : list string) :
  Sorted (fun a b => String.leb a b = true) (sorted l).
Proof.
  induction l as [|x l IH]; simpl; [constructor|].
  apply insert_str_Sorted, IH.
Qed.

(** X1: a selector's option list starts with ["All"]; what follows is in
    ascending order without repetition and holds exactly the values that
    occur in the column of the full table; without the column nothing
    follows. *)
Theorem selector_options_shape (df : DataFrame) (col : string)
    (field : PlantRecord -> option string) :
  exists rest,
    selector_options df col field = All :: rest
    /\ NoDup rest
    /\ Sorted (fun a b => String.leb a b = true) rest
    /\ (has_col df col = true ->
        forall s, In s rest <-> exists ir, In ir (rows df) /\ field (snd ir) = Some s)
    /\ (has_col df col = false -> rest = []).
Proof.
  unfold selector_options. destruct (has_col df col).
  - eexists. split; [reflexivity|].
    split; [apply sorted_NoDup, unique_from_NoDup|].
    split; [apply sorted_Sorted|]. split; [|discriminate].
    intros _ s. rewrite sorted_In. unfold unique. rewrite unique_from_In.
    rewrite dropna_In, in_map_iff. split.
    + intros [(ir & E & Hin) _]. exists ir. auto.
    + intros (ir & Hin & E). split; [exists ir; auto|intros []].
  - exists []. split; [reflexivity|]. split; [constructor|].
    split; [constructor|]. split; [discriminate|reflexivity].
Qed.

Lemma selector_options_shape_witness :
  exists rest,
    selector_options plants_abc owner_col owner = All :: rest
    /\ rest = ["Acme"; "Borg"]
    /\ forall s, In s rest <-> exists ir, In ir (rows plants_abc) /\ owner (snd ir) = Some s.
Proof.
  destruct (selector_options_shape plants_abc owner_col owner)
    as (rest & E & _ & _ & Hin & _).
  exists rest. split; [exact E|].
  split; [vm_compute in E; injection E as <-; reflexivity|].
  apply Hin. reflexivity.
Defined.

(** ** When the filter returns and when it raises *)

Lemma bind_raise {A B} (m : M A) (k : A -> M B) (h : Heap) (e : PyError) :
  m h = Raise e -> bind m k h = Raise e.
Proof. intros H. unfold bind. rewrite H. reflexivity. Qed.

Lemma column_raise {A} (h : Heap) (r : Ref) (df : DataFrame) (col : string)
    (field : PlantRecord -> option A) :
  nth_error h r = Some df -> has_col df col = false ->
  column r col field h = Raise (KeyError col).
Proof.
  intros H Hc. unfold column, bind, deref, lift, getitem. rewrite H, Hc. reflexivity.
Qed.

Lemma offered_has_col (df : DataFrame) (col : string)
    (field : PlantRecord -> option string) (s : string) :
  In s (selector_options df col field) ->
  String.eqb s All || has_col df col = true.
Proof.
  unfold selector_options. destruct (has_col df col); [intros _; apply orb_true_r|].
  intros [<-|[]]. reflexivity.
Qed.

Lemma run_filter_key_error_owner (base : DataFrame)
    (selected_country selected_company : string) (capacity_range : Z * Z) :
  String.eqb selected_country All || has_col base country_col = true ->
  String.eqb selected_company All = false ->
  has_col base owner_col = false ->
  run_filter base selected_country selected_company capacity_range
  = Raise (KeyError owner_col).
Proof.
  intros Hc Hs Ho. unfold run_filter, run_on, filtering_logic.
  rewrite (bind_ok _ _ _ _ _ (copy_run [base] 0 base eq_refl)).
  destruct (equality_step_run ([base] ++ [base]) 1 base
              (negb (String.eqb selected_country All))
              country_col country selected_country eq_refl) as (r2 & e2 & R2 & N2).
  { intros Ha. destruct (String.eqb selected_country All); [discriminate|exact Hc]. }
  unfold country_step. cbn [List.length]. rewrite (bind_ok _ _ _ _ _ R2).
  rewrite bind_raise with (e := KeyError owner_col); [reflexivity|].
  unfold owner_step. rewrite Hs. cbn [negb].
  apply bind_raise. eapply column_raise; [exact N2|exact Ho].
Qed.

(** X2: for a selection taken from the offered option lists the filter
    always returns a table; a country other than ["All"] on a table without
    the country column raises [KeyError] on that column, and otherwise an
    owner other than ["All"] on a table without the owner column raises
    [KeyError] on the owner column. *)
Theorem filter_returns_or_key_error
    (base : DataFrame) (C O : string) (R : Z * Z) :
  (In C (selector_options base country_col country) ->
   In O (selector_options base owner_col owner) ->
   exists out, run_filter base C O R = Ok out)
  /\ (C <> All -> has_col base country_col = false ->
      run_filter base C O R = Raise (KeyError country_col))
  /\ (C = All \/ has_col base country_col = true ->
      O <> All -> has_col base owner_col = false ->
      run_filter base C O R = Raise (KeyError owner_col)).
Proof.
  split; [|split].
  - intros HC HO. eexists. apply run_filter_ok. unfold criteria_ok.
    rewrite (offered_has_col _ _ _ _ HC), (offered_has_col _ _ _ _ HO). reflexivity.
  - intros HC Hc. apply run_filter_key_error_country; [|exact Hc].
    apply String.eqb_neq. exact HC.
  - intros HC HO Ho. apply run_filter_key_error_owner; [| |exact Ho].
    + destruct HC as [-> | ->]; [reflexivity|apply orb_true_r].
    + apply String.eqb_neq. exact HO.
Qed.

Lemma filter_returns_or_key_error_witness :
  (exists out, run_filter plants_abc "B" "Acme" (0%Z, 300%Z) = Ok out)
  /\ run_filter (read_csv [owner_col] [plant "P" "Acme" "A" None]) "A" All (0%Z, 1%Z)
     = Raise (KeyError country_col)
  /\ run_filter (read_csv [country_col] [plant "P" "Acme" "A" None]) "A" "Acme" (0%Z, 1%Z)
     = Raise (KeyError owner_col).
Proof.
  split; [|split].
  - apply (proj1 (filter_returns_or_key_error plants_abc "B" "Acme" (0%Z, 300%Z))).
    + vm_compute. auto.
    + vm_compute. auto.
  - apply (proj1 (proj2 (filter_returns_or_key_error
                           (read_csv [owner_col] [plant "P" "Acme" "A" None])
                           "A" All (0%Z, 1%Z)))).
    + discriminate.
    + reflexivity.
  - apply (proj2 (proj2 (filter_returns_or_key_error
                           (read_csv [country_col] [plant "P" "Acme" "A" None])
                           "A" "Acme" (0%Z, 1%Z)))).
    + right. reflexivity.
    + discriminate.
    + reflexivity.
Defined.

(** ** The slider on a table without any capacity value *)

Lemma series_max_none (s : Series Q) :
  series_max s = None <-> forall c, ~ In (Some c) s.
Proof.
  induction s as [|[q|] s IH]; simpl.
  - split; [intros _ c []|reflexivity].
  - split.
    + destruct (series_max s); discriminate.
    + intros H. exfalso. apply (H q). left. reflexivity.
  - rewrite IH. split.
    + intros H c [E|Hin]; [discriminate|exact (H c Hin)].
    + intros H c Hin. apply (H c). right. exact Hin.
Qed.

(** X3: the slider computation raises [ValueError] exactly when the table
    has the capacity column and no row with a capacity value (an empty
    table included); the script then stops in the sidebar, whatever the
    widgets hold, before any filtering. *)
Theorem slider_fails_without_capacity_values (df : DataFrame) :
  (capacity_slider df = Raise ValueError <->
   has_col df capcol = true
   /\ forall ir, In ir (rows df) -> capacity (snd ir) = None)
  /\ (capacity_slider df = Raise ValueError ->
      forall h r w, nth_error h r = Some df -> main_run r w h = Raise ValueError).
Proof.
  assert (Hiff : capacity_slider df = Raise ValueError <->
                 has_col df capcol = true
                 /\ forall ir, In ir (rows df) -> capacity (snd ir) = None).
  { unfold capacity_slider, cap_max. destruct (has_col df capcol).
    - destruct (series_max _) as [m|] eqn:E; cbn [int_].
      + split; [discriminate|]. intros [_ H]. exfalso.
        assert (Hn : series_max (map (fun ir => capacity (snd ir)) (rows df)) = None);
          [|congruence].
        apply series_max_none. intros c Hc. apply in_map_iff in Hc.
        destruct Hc as (ir & Ec & Hin). rewrite (H ir Hin) in Ec. discriminate.
      + split; [|reflexivity]. intros _. split; [reflexivity|].
        intros ir Hin. destruct (capacity (snd ir)) as [c|] eqn:Ec; [|reflexivity].
        exfalso. apply (proj1 (series_max_none _) E c).
        apply in_map_iff. exists ir. auto.
    - split; [discriminate|]. intros [H _]. discriminate. }
  split; [exact Hiff|].
  intros Hs h r w Hr. unfold main_run. apply bind_raise.
  unfold sidebar_filters, bind, deref, lift. rewrite Hr, Hs. reflexivity.
Qed.

Lemma slider_fails_without_capacity_values_witness :
  capacity_slider plants_none = Raise ValueError
  /\ main_run 0 (mkSelection All All (0%Z, 1%Z)) [plants_none] = Raise ValueError.
Proof.
  assert (H : capacity_slider plants_none = Raise ValueError).
  { apply (proj1 (slider_fails_without_capacity_values plants_none)).
    split; [reflexivity|]. intros ir []. }
  split; [exact H|].
  apply (proj2 (slider_fails_without_capacity_values plants_none) H
           [plants_none] 0 (mkSelection All All (0%Z, 1%Z))).
  reflexivity.
Defined.

(** ** The default view and how filters compose *)

Lemma capacity_slider_ok (df : DataFrame) (sl : Slider) :
  capacity_slider df = Ok sl ->
  min_value sl = 0%Z /\ slider_value sl = (0%Z, max_value sl)
  /\ cap_max df = Ok (max_value sl).
Proof.
  unfold capacity_slider. destruct (cap_max df) as [m|e]; [|discriminate].
  intros E. injection E as <-. repeat split.
Qed.

Lemma whole_capacity_below_cap_max (df : DataFrame) (m : Z) (ir : nat * PlantRecord)
    (c : Q) (z : Z) :
  has_col df capcol = true -> cap_max df = Ok m ->
  In ir (rows df) -> capacity (snd ir) = Some c ->
  (0 <= z)%Z -> (c == inject_Z z)%Q ->
  (c <= inject_Z m)%Q.
Proof.
  intros Hc Hm Hin Ec Hz Ecz. unfold cap_max in Hm. rewrite Hc in Hm.
  assert (Hs : In (Some c) (map (fun ir => capacity (snd ir)) (rows df))).
  { apply in_map_iff. exists ir. auto. }
  destruct (series_max_ge _ _ Hs) as (mx & Emx & Hmx).
  rewrite Emx in Hm. cbn [int_] in Hm. injection Hm as <-.
  assert (Hzmx : (inject_Z z <= mx)%Q) by (rewrite <- Ecz; exact Hmx).
  assert (Hmx0 : (0 <= Qnum mx)%Z).
  { assert (H0 : (0 <= mx)%Q).
    { eapply Qle_trans; [|exact Hzmx]. rewrite <- (Zle_Qle 0). exact Hz. }
    unfold Qle in H0. cbn in H0. lia. }
  rewrite Z.quot_div_nonneg by lia.
  rewrite Ecz, <- Zle_Qle.
  rewrite <- (Qfloor_Z z). destruct mx as [n d].
  apply (Qfloor_resp_le _ (n # d)), Hzmx.
Qed.

(** X4: with both selectors on ["All"] and the slider left at its default,
    the filter keeps exactly the rows whose capacity is present, not
    negative and at most the slider's upper bound; a row above that bound
    (the largest capacity itself when it is not a whole number) or below 0
    is left out, and when every capacity on record is a non-negative whole
    number the rows with a capacity on record are all kept. *)
Theorem default_selection_view (base : DataFrame) (sl : Slider) :
  has_col base capcol = true ->
  capacity_slider base = Ok sl ->
  exists out,
    run_filter base All All (slider_value sl) = Ok out
    /\ (forall ir, In ir (rows out) <->
          In ir (rows base)
          /\ exists c, capacity (snd ir) = Some c
                       /\ (0 <= c)%Q /\ (c <= inject_Z (max_value sl))%Q)
    /\ (forall ir c, In ir (rows base) -> capacity (snd ir) = Some c ->
          (c < 0)%Q \/ (inject_Z (max_value sl) < c)%Q -> ~ In ir (rows out))
    /\ ((forall ir c, In ir (rows base) -> capacity (snd ir) = Some c ->
           exists z, (0 <= z)%Z /\ (c == inject_Z z)%Q) ->
        rows out = filter (fun ir => is_present (capacity (snd ir))) (rows base)).
Proof.
  intros Hc Hs. destruct (capacity_slider_ok _ _ Hs) as (_ & Ev & Hm).
  rewrite Ev. eexists. split; [apply run_filter_ok; reflexivity|]. cbn [rows].
  assert (Hiff : forall ir,
    In ir (filter (keep base All All (0%Z, max_value sl)) (rows base)) <->
    In ir (rows base)
    /\ exists c, capacity (snd ir) = Some c
                 /\ (0 <= c)%Q /\ (c <= inject_Z (max_value sl))%Q).
  { intros ir. rewrite filter_In, keep_all_all. unfold capacity_pred. rewrite Hc.
    rewrite capacity_within_iff. reflexivity. }
  split; [exact Hiff|]. split.
  - intros ir c Hin Ec Hout Hk. apply Hiff in Hk.
    destruct Hk as (_ & c' & Ec' & H0 & H1). rewrite Ec in Ec'. injection Ec' as <-.
    destruct Hout as [H|H]; [exact (Qlt_not_le _ _ H H0)|exact (Qlt_not_le _ _ H H1)].
  - intros Hwhole. apply filter_ext_in. intros ir Hin.
    rewrite keep_all_all. unfold capacity_pred. rewrite Hc. unfold capacity_within.
    destruct (capacity (snd ir)) as [c|] eqn:Ec; [|reflexivity].
    destruct (Hwhole ir c Hin Ec) as (z & Hz & Ecz). cbn [fst snd is_present].
    apply andb_true_iff. split; apply Qle_bool_iff.
    + rewrite Ecz. rewrite <- (Zle_Qle 0). exact Hz.
    + eapply whole_capacity_below_cap_max; eauto.
Qed.

Lemma default_selection_view_witness :
  (exists out,
     run_filter plants_abc All All (0%Z, 300%Z) = Ok out
     /\ rows out = rows plants_abc)
  /\ (exists out,
        run_filter plants_fractional All All (0%Z, 100%Z) = Ok out
        /\ forall ir, In ir (rows plants_fractional) -> ~ In ir (rows out)).
Proof.
  split.
  - destruct (default_selection_view plants_abc (mkSlider 0%Z 300%Z (0%Z, 300%Z))
                eq_refl eq_refl) as (out & Hrun & _ & _ & Hall).
    exists out. split; [exact Hrun|]. rewrite Hall; [reflexivity|].
    intros ir c Hin Ec. simpl in Hin.
    repeat (destruct Hin as [<-|Hin];
            [injection Ec as <-; eexists; split; [|reflexivity]; lia|]).
    contradiction.
  - destruct (default_selection_view plants_fractional (mkSlider 0%Z 100%Z (0%Z, 100%Z))
                eq_refl eq_refl) as (out & Hrun & _ & Hdrop & _).
    exists out. split; [exact Hrun|].
    intros ir Hin. simpl in Hin. destruct Hin as [<-|[]].
    apply (Hdrop _ (201 # 2)%Q); [left; reflexivity|reflexivity|].
    right. reflexivity.
Defined.

Lemma capacity_within_narrower (R R' : Z * Z) (r : PlantRecord) :
  (fst R <= fst R')%Z -> (snd R' <= snd R)%Z ->
  capacity_within R' r = true -> capacity_within R r = true.
Proof.
  intros Hlo Hhi. rewrite !capacity_within_iff.
  intros (c & Ec & H1 & H2). exists c. split; [exact Ec|].
  rewrite Zle_Qle in Hlo, Hhi. split; eapply Qle_trans; eauto.
Qed.

(** X5: filtering a filtered table again with the same selection returns
    it unchanged, and filtering it with a selection that only narrows the
    first one (same or newly chosen country and owner, capacity range
    inside the first) gives what that narrower selection gives on the base
    table. *)
Theorem filter_idempotent_and_refines
    (base out : DataFrame) (C O : string) (R : Z * Z) :
  criteria_ok base C O = true ->
  run_filter base C O R = Ok out ->
  run_filter out C O R = Ok out
  /\ forall C' O' R',
       criteria_ok base C' O' = true ->
       C = All \/ C' = C -> O = All \/ O' = O ->
       (fst R <= fst R')%Z -> (snd R' <= snd R)%Z ->
       run_filter out C' O' R' = run_filter base C' O' R'.
Proof.
  intros Hok Hrun. rewrite (run_filter_ok base C O R Hok) in Hrun.
  injection Hrun as <-.
  assert (Href : forall C' O' R',
            criteria_ok base C' O' = true ->
            C = All \/ C' = C -> O = All \/ O' = O ->
            (fst R <= fst R')%Z -> (snd R' <= snd R)%Z ->
            run_filter {| columns := columns base;
                          rows := filter (keep base C O R) (rows base) |} C' O' R'
            = run_filter base C' O' R').
  { intros C' O' R' Hok' HC HO Hlo Hhi.
    rewrite (run_filter_ok base C' O' R' Hok').
    rewrite run_filter_ok by exact Hok'. cbn [columns rows]. f_equal. f_equal.
    rewrite filter_twice. apply filter_ext. intros [i r].
    change (keep {| columns := columns base;
                    rows := filter (keep base C O R) (rows base) |} C' O' R' (i, r))
      with (keep base C' O' R' (i, r)).
    destruct (keep base C' O' R' (i, r)) eqn:K'; [|apply andb_false_r].
    rewrite andb_true_r. unfold keep in *. cbn [snd] in *.
    apply andb_true_iff in K'. destruct K' as [K' K3].
    apply andb_true_iff in K'. destruct K' as [K1 K2].
    rewrite !andb_true_iff. repeat split.
    - destruct HC as [-> | ->]; [reflexivity|exact K1].
    - destruct HO as [-> | ->]; [reflexivity|exact K2].
    - unfold capacity_pred in *. destruct (has_col base capcol); [|reflexivity].
      eapply capacity_within_narrower; eauto. }
  split; [|exact Href].
  rewrite (Href C O R Hok); [|right; reflexivity|right; reflexivity|lia|lia].
  apply run_filter_ok, Hok.
Qed.

Lemma filter_idempotent_and_refines_witness :
  exists out,
    run_filter plants_abc "A" All (0%Z, 300%Z) = Ok out
    /\ run_filter out "A" All (0%Z, 300%Z) = Ok out
    /\ run_filter out "A" "Borg" (150%Z, 300%Z)
       = run_filter plants_abc "A" "Borg" (150%Z, 300%Z).
Proof.
  eexists. split; [vm_compute; reflexivity|].
  destruct (filter_idempotent_and_refines plants_abc _ "A" All (0%Z, 300%Z)
              eq_refl eq_refl) as [Hid Href].
  split; [exact Hid|].
  apply Href; [reflexivity|right; reflexivity|left; reflexivity|simpl; lia|simpl; lia].
Defined.

(** ** Metrics of a filtered table *)

Lemma unique_from_constant (seen l : list string) (c : string) :
  (forall x, In x l -> x = c) -> ~ In c seen -> l <> [] ->
  unique_from seen l = [c].
Proof.
  intros Hall Hc Hne. destruct l as [|y l]; [contradiction|].
  assert (y = c) by (apply Hall; left; reflexivity). subst y.
  simpl. destruct (existsb (String.eqb c) seen) eqn:E.
  - exfalso. apply existsb_exists in E. destruct E as (z & Hz & Ez).
    apply String.eqb_eq in Ez. subst z. contradiction.
  - f_equal. clear E Hne.
    assert (Hseen : In c (c :: seen)) by (left; reflexivity).
    revert Hseen. generalize (c :: seen) as seen'.
    induction l as [|y l IH]; intros seen' Hseen; simpl; [reflexivity|].
    assert (y = c) by (apply Hall; right; left; reflexivity). subst y.
    assert (E : existsb (String.eqb c) seen' = true).
    { apply existsb_exists. exists c. split; [exact Hseen|apply String.eqb_refl]. }
    rewrite E. apply IH; [|exact Hseen].
    intros x [->|Hx]; [reflexivity|]. apply Hall. right. right. exact Hx.
Qed.

Lemma str_is_eq (x : string) (c : option string) :
  str_is x c = true <-> c = Some x.
Proof.
  unfold str_is. destruct c as [y|]; [|split; discriminate].
  rewrite String.eqb_eq. split; [intros ->; reflexivity|congruence].
Qed.

(** X6: once a country other than ["All"] is selected, the "Countries with
    Plants" metric of the filtered table is 1 when any plant is left and 0
    when none is. *)
Theorem one_country_after_country_filter
    (base out : DataFrame) (C O : string) (R : Z * Z) :
  criteria_ok base C O = true ->
  C <> All ->
  run_filter base C O R = Ok out ->
  ncountries (create_metrics_row out) = match rows out with [] => 0 | _ => 1 end
  /\ forall ir, In ir (rows out) -> country (snd ir) = Some C.
Proof.
  intros Hok HC Hrun. rewrite (run_filter_ok base C O R Hok) in Hrun.
  injection Hrun as <-.
  apply String.eqb_neq in HC.
  assert (Hcol : has_col base country_col = true).
  { unfold criteria_ok in Hok. rewrite HC in Hok. apply andb_true_iff in Hok.
    destruct Hok as [H _]. exact H. }
  assert (Hrows : forall ir, In ir (filter (keep base C O R) (rows base)) ->
                             country (snd ir) = Some C).
  { intros ir Hin. apply filter_In in Hin. destruct Hin as [_ Hk].
    unfold keep, country_pred in Hk. rewrite HC in Hk.
    apply andb_true_iff in Hk. destruct Hk as [Hk _].
    apply andb_true_iff in Hk. destruct Hk as [Hk _].
    apply str_is_eq, Hk. }
  split; [|exact Hrows].
  unfold create_metrics_row; cbn [ncountries rows columns].
  change (has_col {| columns := columns base;
                     rows := filter (keep base C O R) (rows base) |} country_col)
    with (has_col base country_col). rewrite Hcol.
  destruct (filter (keep base C O R) (rows base)) as [|ir l] eqn:E; [reflexivity|].
  unfold nunique, unique. rewrite (unique_from_constant [] _ C); [reflexivity| | |].
  - intros x Hx. apply dropna_In, in_map_iff in Hx. destruct Hx as (jr & Ej & Hj).
    rewrite (Hrows jr Hj) in Ej. congruence.
  - intros [].
  - cbn [map]. rewrite (Hrows ir (or_introl eq_refl)). discriminate.
Qed.

Lemma one_country_after_country_filter_witness :
  exists out,
    run_filter plants_abc "A" All (0%Z, 300%Z) = Ok out
    /\ ncountries (create_metrics_row out) = 1.
Proof.
  eexists. split; [reflexivity|].
  apply (proj1 (one_country_after_country_filter plants_abc _ "A" All (0%Z, 300%Z)
                  eq_refl ltac:(discriminate) eq_refl)).
Defined.

Lemma fold_Qplus_bounds (a b : Q) (l : list Q) :
  Forall (fun c => (a <= c)%Q /\ (c <= b)%Q) l ->
  forall acc,
    (acc + inject_Z (Z.of_nat (List.length l)) * a <= fold_left Qplus l acc)%Q
    /\ (fold_left Qplus l acc <= acc + inject_Z (Z.of_nat (List.length l)) * b)%Q.
Proof.
  induction 1 as [|c l [Hac Hcb] _ IH]; intros acc.
  - simpl. split; ring_simplify; apply Qle_refl.
  - cbn [fold_left List.length]. rewrite Nat2Z.inj_succ. unfold Z.succ.
    rewrite inject_Z_plus. change (inject_Z 1) with 1%Q.
    destruct (IH (acc + c)%Q) as [H1 H2]. split.
    + eapply Qle_trans; [|exact H1]. ring_simplify. lra.
    + eapply Qle_trans; [exact H2|]. ring_simplify. lra.
Qed.

Lemma dropna_all_present {X} (f : X -> option Q) (P : Q -> Prop) (l : list X) :
  (forall x, In x l -> exists c, f x = Some c /\ P c) ->
  List.length (dropna (map f l)) = List.length l /\ Forall P (dropna (map f l)).
Proof.
  induction l as [|x l IH]; intros H; simpl; [split; [reflexivity|constructor]|].
  destruct (H x (or_introl eq_refl)) as (c & Ec & Pc). rewrite Ec.
  destruct IH as [IH1 IH2]; [intros y Hy; apply H; right; exact Hy|].
  simpl. split; [f_equal; exact IH1|constructor; assumption].
Qed.

(** X7: when the table has the capacity column and the filter leaves at
    least one plant, the total capacity lies between the number of plants
    times the lower and times the upper end of the selected range, and the
    average capacity shown lies within the selected range. *)
Theorem capacity_metrics_within_range
    (base out : DataFrame) (C O : string) (R : Z * Z) :
  criteria_ok base C O = true ->
  has_col base capcol = true ->
  run_filter base C O R = Ok out ->
  rows out <> [] ->
  exists t a,
    tc (create_metrics_row out) = PyFloat (Some t)
    /\ avgc (create_metrics_row out) = PyFloat (Some a)
    /\ (inject_Z (Z.of_nat (len out)) * inject_Z (fst R) <= t)%Q
    /\ (t <= inject_Z (Z.of_nat (len out)) * inject_Z (snd R))%Q
    /\ (inject_Z (fst R) <= a)%Q /\ (a <= inject_Z (snd R))%Q.
Proof.
  intros Hok Hc Hrun Hne. rewrite (run_filter_ok base C O R Hok) in Hrun.
  injection Hrun as <-. cbn [rows] in Hne.
  unfold create_metrics_row, len; cbn [tc avgc rows].
  change (has_col {| columns := columns base;
                     rows := filter (keep base C O R) (rows base) |} capcol)
    with (has_col base capcol). rewrite Hc.
  set (l := filter (keep base C O R) (rows base)) in *.
  destruct (dropna_all_present (fun ir : nat * PlantRecord => capacity (snd ir))
              (fun c => (inject_Z (fst R) <= c)%Q /\ (c <= inject_Z (snd R))%Q) l)
    as [Hlen Hall].
  { intros ir Hin. apply filter_In in Hin. destruct Hin as [_ Hk].
    unfold keep, capacity_pred in Hk. rewrite Hc in Hk.
    apply andb_true_iff in Hk. destruct Hk as [_ Hk].
    apply capacity_within_iff in Hk. destruct Hk as (c & Ec & H1 & H2).
    exists c. auto. }
  unfold series_sum, series_mean, Qsum.
  set (vals := dropna (map (fun ir : nat * PlantRecord => capacity (snd ir)) l)) in *.
  destruct (fold_Qplus_bounds _ _ _ Hall 0%Q) as [Hlo Hhi].
  rewrite Hlen in Hlo, Hhi. rewrite Qplus_0_l in Hlo, Hhi.
  assert (Hpos : (0 < inject_Z (Z.of_nat (List.length l)))%Q).
  { rewrite <- (Zlt_Qlt 0). destruct l; [contradiction|simpl; lia]. }
  destruct vals as [|v vals'] eqn:Ev.
  { exfalso. simpl in Hlen. destruct l; [contradiction|discriminate]. }
  rewrite <- Ev in *. rewrite Hlen.
  eexists. eexists. split; [reflexivity|]. split; [reflexivity|].
  split; [exact Hlo|]. split; [exact Hhi|]. split.
  - apply Qle_shift_div_l; [exact Hpos|]. rewrite Qmult_comm. exact Hlo.
  - apply Qle_shift_div_r; [exact Hpos|]. rewrite Qmult_comm. exact Hhi.
Qed.

Lemma capacity_metrics_within_range_witness :
  exists out t a,
    run_filter plants_abc "A" All (50%Z, 250%Z) = Ok out
    /\ tc (create_metrics_row out) = PyFloat (Some t)
    /\ avgc (create_metrics_row out) = PyFloat (Some a)
    /\ (inject_Z 50 <= a)%Q /\ (a <= inject_Z 250)%Q.
Proof.
  destruct (capacity_metrics_within_range plants_abc _ "A" All (50%Z, 250%Z)
              eq_refl eq_refl eq_refl ltac:(discriminate))
    as (t & a & Ht & Ha & _ & _ & H1 & H2).
  eexists. exists t, a. split; [reflexivity|]. repeat split; assumption.
Defined.

(** ** Company analysis tab *)

Lemma cell_eqb_eq (a b : option string) : cell_eqb a b = true <-> a = b.
Proof.
  destruct a as [x|], b as [y|]; simpl; try (split; [discriminate|congruence]).
  - rewrite String.eqb_eq. split; congruence.
  - tauto.
Qed.

Lemma existsb_cell_In (c : option string) (l : list (option string)) :
  existsb (cell_eqb c) l = true <-> In c l.
Proof.
  rewrite existsb_exists. split.
  - intros (x & Hx & E). apply cell_eqb_eq in E. subst. exact Hx.
  - intros H. exists c. split; [exact H|apply cell_eqb_eq; reflexivity].
Qed.

Lemma unique_cells_from_In (seen : list (option string)) (s : Series string)
    (c : option string) :
  In c (unique_cells_from seen s) <-> In c s /\ ~ In c seen.
Proof.
  revert seen. induction s as [|y s IH]; intros seen; simpl; [tauto|].
  destruct (existsb (cell_eqb y) seen) eqn:E.
  - apply existsb_cell_In in E. rewrite IH. split.
    + intros [H1 H2]. auto.
    + intros [[->|H1] H2]; [contradiction|auto].
  - assert (Hy : ~ In y seen).
    { intros H. apply existsb_cell_In in H. congruence. }
    simpl. rewrite IH. simpl. split.
    + intros [->|[H1 H2]]; [auto|]. split; [auto|]. intros H. apply H2. auto.
    + intros [[->|H1] H2]; [auto|].
      destruct (cell_eqb y c) eqn:Eyc.
      * apply cell_eqb_eq in Eyc. auto.
      * right. split; [exact H1|]. intros [E'|H]; [|contradiction].
        subst. rewrite (proj2 (cell_eqb_eq c c) eq_refl) in Eyc. discriminate.
Qed.

Lemma isin_unique_cells (c : option string) (s : Series string) :
  existsb (cell_eqb c) (unique_cells s) = true <-> In c s.
Proof.
  rewrite existsb_cell_In. unfold unique_cells. rewrite unique_cells_from_In.
  split; [intros [H _]; exact H|intros H; split; [exact H|intros []]].
Qed.

Lemma getitem_ok {R A} (df : Frame R) (col : string) (field : R -> option A) :
  has_col df col = true ->
  getitem df col field = Ok (map (fun ir => field (snd ir)) (rows df)).
Proof. intros H. unfold getitem. rewrite H. reflexivity. Qed.

(** The rows the company restriction keeps. *)
Lemma restrict_companies_ok (company_df : CompanyFrame) (filtered_df : DataFrame)
    (selected_country selected_company : string) :
  has_col company_df owner_col = true ->
  String.eqb selected_country All || has_col filtered_df owner_col = true ->
  restrict_companies company_df filtered_df selected_country selected_company
  = Ok {| columns := columns company_df;
          rows := filter
                    (fun ir =>
                       (if String.eqb selected_company All then true
                        else str_is selected_company (company_owner (snd ir)))
                       && (if String.eqb selected_country All then true
                           else existsb (cell_eqb (company_owner (snd ir)))
                                  (unique_cells (map (fun jr => owner (snd jr))
                                                   (rows filtered_df)))))
                    (rows company_df) |}.
Proof.
  intros Hc Hf. unfold restrict_companies.
  assert (E1 : (if negb (String.eqb selected_company All)
                then o <~ getitem company_df owner_col company_owner ;;
                     Ok (getitem_mask company_df (eq_str o selected_company))
                else Ok company_df)
               = Ok {| columns := columns company_df;
                       rows := filter (fun ir =>
                                 if String.eqb selected_company All then true
                                 else str_is selected_company (company_owner (snd ir)))
                                 (rows company_df) |}).
  { destruct (String.eqb selected_company All); cbn [negb].
    - rewrite filter_all by reflexivity. rewrite frame_eta. reflexivity.
    - unfold getitem. rewrite Hc. cbn [rbind]. rewrite getitem_mask_eq_str.
      reflexivity. }
  rewrite E1. cbn [rbind].
  destruct (String.eqb selected_country All); cbn [negb].
  - do 2 f_equal. apply filter_ext. intros ir. rewrite andb_true_r. reflexivity.
  - cbn [orb] in Hf. rewrite (getitem_ok filtered_df owner_col owner Hf).
    cbn [rbind].
    rewrite (getitem_ok {| columns := columns company_df;
                           rows := filter (fun ir =>
                                     if String.eqb selected_company All then true
                                     else str_is selected_company (company_owner (snd ir)))
                                     (rows company_df) |}
               owner_col company_owner Hc).
    cbn [rbind rows]. f_equal. unfold getitem_mask, isin. cbn [columns rows].
    f_equal. rewrite map_map.
    rewrite (select_map (fun ir : nat * CompanyAggregate =>
               existsb (cell_eqb (company_owner (snd ir)))
                 (unique_cells (map (fun jr => owner (snd jr)) (rows filtered_df))))).
    rewrite filter_twice. reflexivity.
Qed.

(** X8: the company table of tab 2 is cut down to the selected owner, and
    to the owners of the filtered plants only when a country is selected:
    with the country selector on ["All"] the filtered plants (and so the
    capacity slider) play no part, and with both selectors on ["All"] the
    table is passed on as it is; an owner column missing where it is
    looked up raises [KeyError]. *)
Theorem company_restriction
    (company_df : CompanyFrame) (filtered_df : DataFrame) (sc so : string) :
  (sc = All -> so = All ->
   restrict_companies company_df filtered_df sc so = Ok company_df)
  /\ (has_col company_df owner_col = true ->
      sc = All \/ has_col filtered_df owner_col = true ->
      exists out,
        restrict_companies company_df filtered_df sc so = Ok out
        /\ columns out = columns company_df
        /\ Subseq (rows out) (rows company_df)
        /\ (forall ir, In ir (rows out) <->
              In ir (rows company_df)
              /\ (so = All \/ company_owner (snd ir) = Some so)
              /\ (sc = All \/
                  exists jr, In jr (rows filtered_df)
                             /\ owner (snd jr) = company_owner (snd ir)))
        /\ (sc = All -> forall other_df,
              restrict_companies company_df other_df sc so = Ok out))
  /\ (so <> All \/ sc <> All ->
      has_col company_df owner_col = false ->
      restrict_companies company_df filtered_df sc so = Raise (KeyError owner_col)).
Proof.
  split; [|split].
  - intros -> ->. reflexivity.
  - intros Hc Hf.
    assert (Hf' : String.eqb sc All || has_col filtered_df owner_col = true).
    { destruct Hf as [-> | ->]; [reflexivity|apply orb_true_r]. }
    eexists. split; [apply restrict_companies_ok; assumption|]. cbn [columns rows].
    split; [reflexivity|]. split; [apply filter_Subseq|]. split.
    + intros ir. rewrite filter_In, andb_true_iff.
      assert (H1 : (if String.eqb so All then true
                    else str_is so (company_owner (snd ir))) = true
                   <-> so = All \/ company_owner (snd ir) = Some so).
      { destruct (String.eqb so All) eqn:E.
        - apply String.eqb_eq in E. tauto.
        - apply String.eqb_neq in E. rewrite str_is_eq. tauto. }
      assert (H2 : (if String.eqb sc All then true
                    else existsb (cell_eqb (company_owner (snd ir)))
                           (unique_cells (map (fun jr => owner (snd jr))
                                            (rows filtered_df)))) = true
                   <-> sc = All \/ exists jr, In jr (rows filtered_df)
                                   /\ owner (snd jr) = company_owner (snd ir)).
      { destruct (String.eqb sc All) eqn:E.
        - apply String.eqb_eq in E. tauto.
        - apply String.eqb_neq in E. rewrite isin_unique_cells, in_map_iff.
          split.
          + intros (jr & Ej & Hj). right. exists jr. auto.
          + intros [H|(jr & Hj & Ej)]; [contradiction|]. exists jr. auto. }
      rewrite H1, H2. tauto.
    + intros -> other_df. rewrite restrict_companies_ok by (auto; reflexivity).
      reflexivity.
  - intros Hsel Hc. unfold restrict_companies.
    destruct (String.eqb so All) eqn:Eso; cbn [negb].
    + cbn [rbind]. destruct (String.eqb sc All) eqn:Esc; cbn [negb].
      * apply String.eqb_eq in Eso, Esc. destruct Hsel; contradiction.
      * unfold getitem. destruct (has_col filtered_df owner_col); cbn [rbind].
        -- rewrite Hc. reflexivity.
        -- reflexivity.
    + unfold getitem. rewrite Hc. reflexivity.
Qed.

Lemma company_restriction_witness :
  (exists out,
     restrict_companies companies_two plants_abc All "Borg" = Ok out
     /\ map (fun ir => company_owner (snd ir)) (rows out) = [Some "Borg"])
  /\ restrict_companies (read_csv [total_capacity_col] (map snd (rows companies_two)))
       plants_abc "A" All
     = Raise (KeyError owner_col).
Proof.
  split.
  - destruct (proj1 (proj2 (company_restriction companies_two plants_abc All "Borg"))
                eq_refl (or_introl eq_refl)) as (out & Hrun & _).
    exists out. split; [exact Hrun|].
    vm_compute in Hrun. injection Hrun as <-. reflexivity.
  - apply (proj2 (proj2 (company_restriction
                           (read_csv [total_capacity_col] (map snd (rows companies_two)))
                           plants_abc "A" All))).
    + right. discriminate.
    + reflexivity.
Defined.

Lemma empty_false_iff {R} (df : Frame R) :
  empty df = false <-> rows df <> [] /\ columns df <> [].
Proof.
  unfold empty. destruct (rows df) as [|r rs], (columns df) as [|c cs]; split;
    intros H; try discriminate; try reflexivity;
    try (split; discriminate); destruct H as [H1 H2]; contradiction.
Qed.

Lemma has_col_nonempty {R} (df : Frame R) (c : string) :
  has_col df c = true -> columns df <> [].
Proof. unfold has_col. destruct (columns df); [discriminate|discriminate]. Qed.

(** X9: tab 2 shows the "not available" warning when the company table is
    missing or empty; with a table that has its four columns, it shows the
    "no company data" note when the selection leaves no company, and
    otherwise three charts over one and the same list of companies: the
    first 20 rows of the restricted table, in table order. *)
Theorem company_tab_outcomes
    (company_aggregation : option CompanyFrame) (filtered_df : DataFrame)
    (sc so : string) :
  (company_aggregation = None ->
   company_analysis_tab company_aggregation filtered_df sc so
   = Ok (StWarning company_unavailable))
  /\ (forall company_df,
        company_aggregation = Some company_df -> empty company_df = true ->
        company_analysis_tab company_aggregation filtered_df sc so
        = Ok (StWarning company_unavailable))
  /\ (forall company_df,
        company_aggregation = Some company_df -> empty company_df = false ->
        has_col company_df owner_col = true ->
        has_col company_df total_capacity_col = true ->
        has_col company_df number_of_plants_col = true ->
        has_col company_df number_of_countries_col = true ->
        sc = All \/ has_col filtered_df owner_col = true ->
        exists restricted,
          restrict_companies company_df filtered_df sc so = Ok restricted
          /\ (rows restricted = [] ->
              company_analysis_tab company_aggregation filtered_df sc so
              = Ok (StInfo company_no_match))
          /\ (rows restricted <> [] ->
              exists fig_capacity fig_plants fig_countries,
                company_analysis_tab company_aggregation filtered_df sc so
                = Ok (Plots (fig_capacity, fig_plants, fig_countries))
                /\ bar_x fig_capacity
                   = map (fun ir => company_owner (snd ir)) (firstn 20 (rows restricted))
                /\ bar_x fig_plants = bar_x fig_capacity
                /\ bar_x fig_countries = bar_x fig_capacity
                /\ List.length (bar_x fig_capacity) = Nat.min 20 (len restricted))).
Proof.
  split; [|split].
  - intros ->. reflexivity.
  - intros c -> He. unfold company_analysis_tab. rewrite He. reflexivity.
  - intros c -> He Ho Hc Hp Hn Hf.
    assert (Hf' : String.eqb sc All || has_col filtered_df owner_col = true).
    { destruct Hf as [-> | ->]; [reflexivity|apply orb_true_r]. }
    pose proof (restrict_companies_ok c filtered_df sc so Ho Hf') as Hrun.
    match type of Hrun with _ = Ok ?f => set (restricted := f) in * end.
    assert (Hcols : columns restricted = columns c) by reflexivity.
    exists restricted. split; [exact Hrun|].
    unfold company_analysis_tab. rewrite He. cbn [negb]. rewrite Hrun. cbn [rbind].
    split.
    + intros Hr. unfold create_company_charts, empty. rewrite Hr. reflexivity.
    + intros Hr.
      assert (Hne : empty restricted = false).
      { apply empty_false_iff. split; [exact Hr|]. rewrite Hcols.
        eapply has_col_nonempty; eauto. }
      unfold has_col in *. rewrite <- Hcols in Ho, Hc, Hp, Hn.
      destruct (company_charts_are_head restricted Hne Ho Hc Hp Hn)
        as ([[fc fp] fn] & Hch & Hbars).
      rewrite Hch. cbn [rbind]. exists fc, fp, fn. split; [reflexivity|].
      destruct (Hbars TotalCapacity) as (_ & Hx1 & _).
      destruct (Hbars PlantCount) as (_ & Hx2 & _).
      destruct (Hbars CountryCount) as (_ & Hx3 & _).
      cbn [chart_of] in Hx1, Hx2, Hx3.
      split; [exact Hx1|]. split; [congruence|]. split; [congruence|].
      rewrite Hx1, length_map, length_firstn. reflexivity.
Qed.

Lemma company_tab_outcomes_witness :
  company_analysis_tab (Some companies_two) plants_abc All "Nobody"
  = Ok (StInfo company_no_match)
  /\ exists figs,
       company_analysis_tab (Some companies_two) plants_abc All "Borg" = Ok (Plots figs).
Proof.
  split.
  - destruct (proj2 (proj2 (company_tab_outcomes (Some companies_two) plants_abc
                              All "Nobody"))
                companies_two eq_refl eq_refl eq_refl eq_refl eq_refl eq_refl
                (or_introl eq_refl)) as (restricted & Hrun & Hnone & _).
    apply Hnone. vm_compute in Hrun. injection Hrun as <-. reflexivity.
  - destruct (proj2 (proj2 (company_tab_outcomes (Some companies_two) plants_abc
                              All "Borg"))
                companies_two eq_refl eq_refl eq_refl eq_refl eq_refl eq_refl
                (or_introl eq_refl)) as (restricted & Hrun & _ & Hsome).
    destruct Hsome as (fc & fp & fn & Htab & _).
    + vm_compute in Hrun. injection Hrun as <-. discriminate.
    + exists (fc, fp, fn). exact Htab.
Defined.

(** ** Map edge cases *)

Lemma create_geographic_map_cases (df : DataFrame) (map_type : string) :
  has_col df latitude_col = true -> has_col df longitude_col = true ->
  exists df_clean,
    df_clean = {| columns := columns df;
                  rows := filter (fun ir => geo_map_row (snd ir)) (rows df) |}
    /\ create_geographic_map df map_type
       = if String.eqb map_type "scatter" then
           Ok (Some {| map_title := "Geographic Distribution of Operating Steel Plants";
                       map_data := df_clean |})
         else if String.eqb map_type "capacity" then
           match fillna_capacity df_clean with
           | Raise e => Raise e
           | Ok filled => Ok (Some {| map_title := "Steel Plants by Capacity and Owner";
                                      map_data := filled |})
           end
         else if String.eqb map_type "density" then
           Ok (Some {| map_title := "Density Heatmap of Steel Plants";
                       map_data := df_clean |})
         else Ok None.
Proof.
  intros H1 H2. eexists. split; [reflexivity|].
  unfold create_geographic_map. rewrite H1, H2. cbn [negb orb].
  rewrite (geo_map_clean df H1 H2). reflexivity.
Qed.

Lemma fillna_capacity_raise (df : DataFrame) :
  has_col df capcol = false -> fillna_capacity df = Raise (KeyError capcol).
Proof. intros H. unfold fillna_capacity. rewrite H. reflexivity. Qed.

(** X10: the plant map comes back empty-handed exactly when a coordinate
    column is missing or the map type is not one of its three, and, up to
    the plotting call (which is external), it raises exactly in one case:
    the capacity map of a table that has both coordinate columns and no
    capacity column, with [KeyError] on it. *)
Theorem geographic_map_none_or_error (df : DataFrame) (map_type : string) :
  (create_geographic_map df map_type = Ok None <->
   has_col df latitude_col = false \/ has_col df longitude_col = false
   \/ ~ In map_type ["scatter"; "capacity"; "density"])
  /\ (forall e, create_geographic_map df map_type = Raise e <->
        e = KeyError capcol
        /\ has_col df latitude_col = true /\ has_col df longitude_col = true
        /\ map_type = "capacity" /\ has_col df capcol = false).
Proof.
  destruct (has_col df latitude_col) eqn:H1.
  2:{ unfold create_geographic_map. rewrite H1. cbn [negb orb]. split.
      - split; [auto|reflexivity].
      - intros e. split; [discriminate|]. intros (_ & H & _). discriminate. }
  destruct (has_col df longitude_col) eqn:H2.
  2:{ unfold create_geographic_map. rewrite H1, H2. cbn [negb orb]. split.
      - split; [auto|reflexivity].
      - intros e. split; [discriminate|]. intros (_ & _ & H & _). discriminate. }
  destruct (create_geographic_map_cases df map_type H1 H2) as (clean & Ec & ->).
  destruct (String.eqb map_type "scatter") eqn:E1.
  { apply String.eqb_eq in E1. subst map_type. split.
    - split; [discriminate|]. intros [H|[H|H]]; try discriminate.
      exfalso. apply H. left. reflexivity.
    - intros e. split; [discriminate|]. intros (_ & _ & _ & H & _). discriminate. }
  destruct (String.eqb map_type "capacity") eqn:E2.
  { apply String.eqb_eq in E2. subst map_type.
    destruct (has_col df capcol) eqn:Hc.
    - destruct (fillna_capacity_ok clean) as [filled F]; [subst clean; exact Hc|].
      rewrite F. split.
      + split; [discriminate|]. intros [H|[H|H]]; try discriminate.
        exfalso. apply H. right. left. reflexivity.
      + intros e. split; [discriminate|]. intros (_ & _ & _ & _ & H). discriminate.
    - rewrite (fillna_capacity_raise clean) by (subst clean; exact Hc). split.
      + split; [discriminate|]. intros [H|[H|H]]; try discriminate.
        exfalso. apply H. right. left. reflexivity.
      + intros e. split.
        * intros E. injection E as <-. repeat split.
        * intros (-> & _). reflexivity. }
  destruct (String.eqb map_type "density") eqn:E3.
  { apply String.eqb_eq in E3. subst map_type. split.
    - split; [discriminate|]. intros [H|[H|H]]; try discriminate.
      exfalso. apply H. right. right. left. reflexivity.
    - intros e. split; [discriminate|]. intros (_ & _ & _ & H & _). discriminate. }
  apply String.eqb_neq in E1, E2, E3. split.
  - split; [|reflexivity]. intros _. right. right.
    intros [H|[H|[H|[]]]]; congruence.
  - intros e. split; [discriminate|]. intros (_ & _ & _ & H & _). congruence.
Qed.

Lemma geographic_map_none_or_error_witness :
  create_geographic_map plants_abc "heat" = Ok None
  /\ create_geographic_map (read_csv [latitude_col; longitude_col]
                              [plant "P" "Acme" "A" None]) "capacity"
     = Raise (KeyError capcol).
Proof.
  split.
  - apply (proj1 (geographic_map_none_or_error plants_abc "heat")).
    right. right. intros [H|[H|[H|[]]]]; discriminate.
  - apply (proj2 (geographic_map_none_or_error
                    (read_csv [latitude_col; longitude_col] [plant "P" "Acme" "A" None])
                    "capacity")).
    repeat split.
Defined.

Lemma fillna_capacity_rows (df out : DataFrame) :
  fillna_capacity df = Ok out -> Forall2 zero_filled (rows df) (rows out).
Proof.
  unfold fillna_capacity. destruct (has_col df capcol); [|discriminate].
  intros E. injection E as <-. cbn [rows].
  induction (rows df) as [|[i r] l IH]; simpl; constructor; [|exact IH].
  unfold zero_filled; cbn. destruct (capacity r); repeat split.
Qed.

(** X11: the capacity map plots the rows that have both coordinates, one
    for one and in order, each with its capacity replaced by 0 when it was
    absent and every other field as it was; no plotted row lacks a
    capacity. *)
Theorem capacity_map_zero_fills (df : DataFrame) (fig : MapFig) :
  create_geographic_map df "capacity" = Ok (Some fig) ->
  Forall2 zero_filled (filter (fun ir => geo_map_row (snd ir)) (rows df))
          (rows (map_data fig))
  /\ forall ir, In ir (rows (map_data fig)) -> capacity (snd ir) <> None.
Proof.
  intros H.
  assert (Hcoord : has_col df latitude_col = true /\ has_col df longitude_col = true).
  { unfold create_geographic_map in H.
    destruct (has_col df latitude_col), (has_col df longitude_col);
      try discriminate. split; reflexivity. }
  destruct Hcoord as [H1 H2].
  destruct (create_geographic_map_cases df "capacity" H1 H2) as (clean & Ec & E).
  rewrite E in H. cbn in H.
  destruct (fillna_capacity clean) as [filled|e] eqn:F; [|discriminate].
  injection H as <-. cbn [map_data].
  pose proof (fillna_capacity_rows _ _ F) as Hrows. subst clean. cbn [rows] in Hrows.
  split; [exact Hrows|].
  intros ir Hin. clear F E.
  induction Hrows as [|a b la lb Hab _ IH]; [contradiction|].
  destruct Hin as [<-|Hin]; [|exact (IH Hin)].
  destruct Hab as (_ & Hcap & _). rewrite Hcap. discriminate.
Qed.

Lemma capacity_map_zero_fills_witness :
  exists fig,
    create_geographic_map env_gaps "capacity" = Ok (Some fig)
    /\ map (fun ir => capacity (snd ir)) (rows (map_data fig)) = [Some 100%Q; Some 0%Q]
    /\ forall ir, In ir (rows (map_data fig)) -> capacity (snd ir) <> None.
Proof.
  eexists. split; [reflexivity|]. split; [reflexivity|].
  apply (proj2 (capacity_map_zero_fills env_gaps _ eq_refl)).
Defined.

Lemma fillna_capacity_noop (df : DataFrame) :
  has_col df capcol = true ->
  (forall ir, In ir (rows df) -> capacity (snd ir) <> None) ->
  fillna_capacity df = Ok df.
Proof.
  intros Hc Hall. unfold fillna_capacity. rewrite Hc. f_equal.
  destruct df as [cs rs]. cbn [columns rows] in *. f_equal.
  etransitivity; [|apply map_id]. apply map_ext_in.
  intros [i r] Hin. specialize (Hall _ Hin). cbn [fst snd] in *.
  destruct r as [n o c cap la lo ll lol v rg]. cbn in *.
  destruct cap; [reflexivity|contradiction].
Qed.

(** X12: on a filtered table with the capacity column, the capacity map
    plots exactly the data of the scatter map: the capacity filter has
    already dropped every plant without a capacity, so nothing is
    zero-filled; the plotted plants are the base plants that pass the
    selection and have both coordinates. *)
Theorem maps_of_filtered_table
    (base out : DataFrame) (C O : string) (R : Z * Z) :
  criteria_ok base C O = true ->
  has_col base capcol = true ->
  has_col base latitude_col = true ->
  has_col base longitude_col = true ->
  run_filter base C O R = Ok out ->
  exists fig_scatter fig_capacity,
    create_geographic_map out "scatter" = Ok (Some fig_scatter)
    /\ create_geographic_map out "capacity" = Ok (Some fig_capacity)
    /\ map_data fig_capacity = map_data fig_scatter
    /\ forall ir, In ir (rows (map_data fig_scatter)) <->
         In ir (rows base) /\ keep base C O R ir = true
         /\ latitude (snd ir) <> None /\ longitude (snd ir) <> None.
Proof.
  intros Hok Hc H1 H2 Hrun. rewrite (run_filter_ok base C O R Hok) in Hrun.
  injection Hrun as <-.
  set (out := {| columns := columns base;
                 rows := filter (keep base C O R) (rows base) |}).
  destruct (create_geographic_map_cases out "scatter" H1 H2) as (clean & Ec & Es).
  destruct (create_geographic_map_cases out "capacity" H1 H2) as (clean' & Ec' & Ek).
  subst clean'. rewrite <- Ec in Ek. cbn in Es, Ek.
  assert (Hfill : fillna_capacity clean = Ok clean).
  { apply fillna_capacity_noop; [subst clean; exact Hc|].
    intros ir Hin. subst clean. cbn [rows] in Hin.
    apply filter_In in Hin. destruct Hin as [Hin _].
    apply filter_In in Hin. destruct Hin as [_ Hk].
    unfold keep, capacity_pred in Hk. rewrite Hc in Hk.
    apply andb_true_iff in Hk. destruct Hk as [_ Hk].
    apply capacity_within_iff in Hk. destruct Hk as (c & -> & _). discriminate. }
  rewrite Hfill in Ek.
  eexists. eexists. split; [exact Es|]. split; [exact Ek|]. cbn [map_data].
  split; [reflexivity|].
  intros ir. subst clean out. cbn [rows]. rewrite !filter_In, geo_map_row_iff. tauto.
Qed.

Lemma maps_of_filtered_table_witness :
  exists out fig_scatter fig_capacity,
    run_filter plants_abc "A" All (0%Z, 300%Z) = Ok out
    /\ create_geographic_map out "scatter" = Ok (Some fig_scatter)
    /\ create_geographic_map out "capacity" = Ok (Some fig_capacity)
    /\ map_data fig_capacity = map_data fig_scatter.
Proof.
  destruct (maps_of_filtered_table plants_abc _ "A" All (0%Z, 300%Z)
              eq_refl eq_refl eq_refl eq_refl eq_refl)
    as (fs & fc & Hs & Hcap & Heq & _).
  eexists. exists fs, fc. split; [reflexivity|]. repeat split; assumption.
Defined.

(** ** How many plants can be high risk *)

Lemma filter_insert_Q_length (f : Q -> bool) (x : Q) (l : list Q) :
  List.length (filter f (insert_Q x l)) = List.length (filter f (x :: l)).
Proof.
  induction l as [|y l IH]; [reflexivity|].
  simpl. destruct (Qle_bool x y); [reflexivity|].
  simpl. simpl in IH. destruct (f y), (f x); simpl in *; lia.
Qed.

Lemma filter_sort_Q_length (f : Q -> bool) (l : list Q) :
  List.length (filter f (sort_Q l)) = List.length (filter f l).
Proof.
  induction l as [|x l IH]; [reflexivity|].
  simpl sort_Q. rewrite filter_insert_Q_length. simpl.
  destruct (f x); simpl; rewrite IH; reflexivity.
Qed.

Lemma length_sort_Q (l : list Q) : List.length (sort_Q l) = List.length l.
Proof.
  rewrite <- (filter_all (fun _ => true) (sort_Q l)) by reflexivity.
  rewrite filter_sort_Q_length. rewrite filter_all by reflexivity. reflexivity.
Qed.

Lemma exceeding_rows_as_values (t : Q) (l : list (nat * PlantRecord)) :
  List.length (filter (fun ir => exceeds (Some t) (value (snd ir))) l)
  = List.length (filter (fun x => negb (Qle_bool x t))
                   (dropna (map (fun ir => value (snd ir)) l))).
Proof.
  induction l as [|[i r] l IH]; [reflexivity|].
  simpl. destruct (value r) as [x|]; simpl; [|exact IH].
  destruct (Qle_bool x t); simpl; rewrite IH; reflexivity.
Qed.

Lemma sorted_prefix_le (v : list Q) (d : Q) :
  StronglySorted Qle v ->
  forall k x, k < List.length v -> In x (firstn (S k) v) -> (x <= nth k v d)%Q.
Proof.
  induction 1 as [|z l Hs IH Hz]; intros k x Hk Hin; simpl in Hk; [lia|].
  destruct k as [|k]; simpl in Hin.
  - destruct Hin as [<-|[]]. apply Qle_refl.
  - destruct Hin as [<-|Hin].
    + rewrite Forall_forall in Hz. apply Hz. simpl. apply nth_In. lia.
    + simpl. apply IH; [lia|exact Hin].
Qed.

Lemma filter_none {X} (f : X -> bool) (l : list X) :
  (forall x, In x l -> f x = false) -> filter f l = [].
Proof.
  induction l as [|x l IH]; intros H; simpl; [reflexivity|].
  rewrite (H x (or_introl eq_refl)). apply IH. intros y Hy. apply H. right. exact Hy.
Qed.

Lemma count_above_sorted (v : list Q) (t : Q) (k : nat) (d : Q) :
  StronglySorted Qle v -> k < List.length v -> (nth k v d <= t)%Q ->
  List.length (filter (fun x => negb (Qle_bool x t)) v) + S k <= List.length v.
Proof.
  intros Hs Hk Ht.
  assert (E : filter (fun x => negb (Qle_bool x t)) (firstn (S k) v) = []).
  { apply filter_none. intros x Hx. apply negb_false_iff, Qle_bool_iff.
    eapply Qle_trans; [|exact Ht]. apply sorted_prefix_le; assumption. }
  assert (Ev : filter (fun x => negb (Qle_bool x t)) v
               = filter (fun x => negb (Qle_bool x t)) (skipn (S k) v)).
  { rewrite <- (firstn_skipn (S k) v) at 1. rewrite filter_app, E. reflexivity. }
  rewrite Ev.
  pose proof (filter_length_le (fun x => negb (Qle_bool x t)) (skipn (S k) v)) as Hl.
  rewrite length_skipn in Hl. lia.
Qed.

(** Where the 75th percentile sits among the sorted values. *)
Lemma quantile75_position (s : Series Q) (p : Q) :
  quantile s (3 # 4) = Some p ->
  exists k,
    k < List.length (dropna s)
    /\ 3 * (List.length (dropna s) - 1) <= 4 * k + 3
    /\ forall d, (nth k (sort_Q (dropna s)) d <= p)%Q.
Proof.
  unfold quantile.
  pose proof (sort_Q_sorted (dropna s)) as Hs.
  pose proof (length_sort_Q (dropna s)) as Hlen.
  destruct (sort_Q (dropna s)) as [|x0 v] eqn:Ev; [discriminate|].
  set (l := x0 :: v) in *.
  set (n := List.length l) in *.
  set (pos := ((3 # 4) * inject_Z (Z.of_nat (n - 1)))%Q).
  set (k := Z.to_nat (Qfloor pos)).
  intros E.
  assert (Ep : p = Qred (nth k l x0
                         + (nth (Nat.min (k + 1) (n - 1)) l x0 - nth k l x0)
                           * (pos - inject_Z (Qfloor pos))))
    by (cbv zeta in E; congruence).
  clear E.
  assert (Hn : 1 <= n) by (unfold n, l; simpl; lia).
  assert (Hfl : Qfloor pos = (3 * Z.of_nat (n - 1) / 4)%Z).
  { unfold pos, Qfloor, Qmult, inject_Z. cbn [Qnum Qden].
    rewrite Pos.mul_1_r. reflexivity. }
  pose proof (Z.div_mod (3 * Z.of_nat (n - 1)) 4 ltac:(lia)) as Hdm.
  pose proof (Z.mod_pos_bound (3 * Z.of_nat (n - 1)) 4 ltac:(lia)) as Hmb.
  assert (Hk : k <= n - 1) by (unfold k; rewrite Hfl; lia).
  assert (Hk3 : 3 * (n - 1) <= 4 * k + 3) by (unfold k; rewrite Hfl; lia).
  pose proof (Qfloor_le pos) as Hg0.
  pose proof (Qlt_floor pos) as Hg1.
  assert (Hg1' : (pos - inject_Z (Qfloor pos) <= 1)%Q).
  { rewrite inject_Z_plus in Hg1. change (inject_Z 1) with 1%Q in Hg1. lra. }
  assert (Hlu : (nth k l x0 <= nth (Nat.min (k + 1) (n - 1)) l x0)%Q).
  { apply sorted_nth_le; [exact Hs| |]; fold n; lia. }
  destruct (interpolation_between _ _ (pos - inject_Z (Qfloor pos)) Hlu
              ltac:(lra) Hg1') as [Ha _].
  exists k. rewrite <- Hlen. fold n.
  split; [lia|]. split; [exact Hk3|].
  intros d. rewrite (nth_indep l d x0) by (fold n; lia).
  rewrite Ep, Qred_correct. exact Ha.
Qed.

(** X13: the high-risk count never exceeds a quarter of the rows that have
    a risk value, rounded up: four times the count is at most that number
    plus 2; with at least one valued row at least one of them is not
    counted, and with none the count is 0. *)
Theorem high_risk_at_most_a_quarter (df : DataFrame) :
  has_col df value_col = true ->
  let n := List.length (dropna (map (fun ir => value (snd ir)) (rows df))) in
  let high := high_risk_plants (create_environmental_metrics df) in
  4 * high <= n + 2
  /\ (1 <= n -> high + 1 <= n)
  /\ (n = 0 -> high = 0).
Proof.
  intros Hc n high.
  assert (Eh : high = List.length
                        (filter (fun ir => exceeds
                                   (quantile (map (fun ir => value (snd ir)) (rows df))
                                      (3 # 4)) (value (snd ir))) (rows df))).
  { unfold high, create_environmental_metrics; cbn [high_risk_plants].
    rewrite Hc. unfold len, getitem_mask; cbn [rows].
    rewrite gt_float_select. reflexivity. }
  destruct (quantile (map (fun ir => value (snd ir)) (rows df)) (3 # 4))
    as [p|] eqn:Eq.
  - destruct (quantile75_position _ _ Eq) as (k & Hk & Hk3 & Hp). fold n in Hk, Hk3.
    rewrite exceeding_rows_as_values in Eh.
    rewrite <- (filter_sort_Q_length _ (dropna _)) in Eh.
    pose proof (count_above_sorted
                  (sort_Q (dropna (map (fun ir => value (snd ir)) (rows df))))
                  p k 0%Q (sort_Q_sorted _)) as Hcount.
    rewrite length_sort_Q in Hcount. fold n in Hcount.
    specialize (Hcount Hk (Hp 0%Q)). rewrite <- Eh in Hcount.
    repeat split; lia.
  - assert (E0 : high = 0).
    { rewrite Eh. rewrite filter_none; [reflexivity|].
      intros ir _. unfold exceeds. destruct (value (snd ir)); reflexivity. }
    repeat split; lia.
Qed.

Lemma high_risk_at_most_a_quarter_witness :
  has_col env_four value_col = true
  /\ 4 * high_risk_plants (create_environmental_metrics env_four) <= 4 + 2.
Proof.
  split; [reflexivity|].
  exact (proj1 (high_risk_at_most_a_quarter env_four eq_refl)).
Defined.



(** ** Rankings *)

Lemma firstn_Subseq {X} (n : nat) (l : list X) : Subseq (firstn n l) l.
Proof.
  revert n. induction l as [|x l IH]; intros [|n]; simpl.
  - constructor.
  - constructor.
  - apply Subseq_skip. apply (IH 0).
  - apply Subseq_take. apply IH.
Qed.

Lemma Subseq_StronglySorted {X} (R : X -> X -> Prop) (l1 l2 : list X) :
  Subseq l1 l2 -> StronglySorted R l2 -> StronglySorted R l1.
Proof.
  induction 1 as [|y l1 l2 Hs IH|y l1 l2 Hs IH]; intros Hss.
  - constructor.
  - inversion Hss; subst. apply IH; assumption.
  - inversion Hss as [|? ? Hss' Hall]; subst. constructor; [apply IH; assumption|].
    rewrite Forall_forall in *. intros x Hx. apply Hall. eapply Subseq_In; eauto.
Qed.

Lemma StronglySorted_app_cross {X} (R : X -> X -> Prop) (l1 l2 : list X) :
  StronglySorted R (l1 ++ l2) ->
  forall x y, In x l1 -> In y l2 -> R x y.
Proof.
  induction l1 as [|z l1 IH]; simpl; intros Hss x y Hx Hy; [contradiction|].
  inversion Hss as [|? ? Hss' Hall]; subst.
  destruct Hx as [<-|Hx].
  - rewrite Forall_forall in Hall. apply Hall, in_or_app. right. exact Hy.
  - apply IH; assumption.
Qed.

Lemma length_insert_str (x : string) (l : list string) :
  List.length (insert_str x l) = S (List.length l).
Proof.
  induction l as [|y l IH]; simpl; [reflexivity|].
  destruct (String.leb x y); simpl; [reflexivity|]. rewrite IH. reflexivity.
Qed.

Lemma length_sorted (l : list string) : List.length (sorted l) = List.length l.
Proof.
  induction l as [|x l IH]; simpl; [reflexivity|].
  rewrite length_insert_str, IH. reflexivity.
Qed.

Section TopN.

Variable sort_values : Labelled -> Labelled.
Hypothesis sort_values_ok : sorts_descending sort_values.

(** The first [n] entries of a sorted labelled series: no label twice,
    largest first, and nothing left out is larger than anything shown. *)
Lemma top_n_of_sorted (n : nat) (l : Labelled) :
  NoDup (map fst l) ->
  List.length (firstn n (sort_values l)) = Nat.min n (List.length l)
  /\ (forall e, In e (firstn n (sort_values l)) -> In e l)
  /\ NoDup (map fst (firstn n (sort_values l)))
  /\ StronglySorted (fun a b => (snd b <= snd a)%Q) (firstn n (sort_values l))
  /\ (forall e, In e l -> ~ In (fst e) (map fst (firstn n (sort_values l))) ->
      forall e', In e' (firstn n (sort_values l)) -> (snd e <= snd e')%Q).
Proof.
  intros Hnd. destruct (sort_values_ok l) as [Hperm Hsorted].
  pose proof (firstn_Subseq n (sort_values l)) as Hsub.
  split; [rewrite length_firstn, (Permutation_length Hperm); reflexivity|].
  split.
  { intros e He. apply (Permutation_in _ Hperm). eapply Subseq_In; eauto. }
  split.
  { eapply Subseq_NoDup; [apply Subseq_map; exact Hsub|].
    eapply Permutation_NoDup; [|exact Hnd].
    apply Permutation_map, Permutation_sym, Hperm. }
  split; [eapply Subseq_StronglySorted; eauto|].
  intros e He Hout e' He'.
  apply (Permutation_in _ (Permutation_sym Hperm)) in He.
  rewrite <- (firstn_skipn n (sort_values l)) in He, Hsorted.
  apply in_app_or in He. destruct He as [He|He].
  - exfalso. apply Hout, in_map, He.
  - exact (StronglySorted_app_cross _ _ _ Hsorted e' e He' He).
Qed.

Lemma count_of_pos (c : string) (s : Series string) :
  In (Some c) s -> 1 <= count_of c s.
Proof.
  intros H. unfold count_of.
  assert (Hin : In (Some c) (filter (str_is c) s)).
  { apply filter_In. split; [exact H|]. apply str_is_eq. reflexivity. }
  destruct (filter (str_is c) s); [contradiction|simpl; lia].
Qed.

(** The ranking that [value_counts().head(n)] yields. *)
Lemma value_counts_head (n : nat) (s : Series string) :
  let shown := firstn n (value_counts sort_values s) in
  List.length shown = Nat.min n (nunique s)
  /\ NoDup (map fst shown)
  /\ StronglySorted (fun a b => (snd b <= snd a)%Q) shown
  /\ (forall c q, In (c, q) shown ->
        q = inject_Z (Z.of_nat (count_of c s)) /\ 1 <= count_of c s)
  /\ (forall c, In (Some c) s -> ~ In c (map fst shown) ->
      forall c' q', In (c', q') shown -> count_of c s <= count_of c' s).
Proof.
  cbv zeta. unfold value_counts.
  set (l := map (fun c => (c, inject_Z (Z.of_nat (count_of c s)))) (unique (dropna s))).
  assert (Hfst : map fst l = unique (dropna s)).
  { unfold l. rewrite map_map. apply map_id. }
  assert (Hnd : NoDup (map fst l)) by (rewrite Hfst; apply unique_from_NoDup).
  assert (Hl : forall c q, In (c, q) l <->
                 In (Some c) s /\ q = inject_Z (Z.of_nat (count_of c s))).
  { intros c q. unfold l. rewrite in_map_iff. split.
    - intros (c' & E & Hc'). injection E as -> <-.
      unfold unique in Hc'. apply unique_from_In in Hc'. destruct Hc' as [Hc' _].
      apply dropna_In in Hc'. auto.
    - intros [Hc ->]. exists c. split; [reflexivity|].
      unfold unique. apply unique_from_In. split; [apply dropna_In, Hc|intros []]. }
  destruct (top_n_of_sorted n l Hnd) as (Hlen & Hin & Hnd' & Hss & Hout).
  split.
  { rewrite Hlen. unfold nunique. rewrite <- Hfst, length_map. reflexivity. }
  split; [exact Hnd'|]. split; [exact Hss|]. split.
  - intros c q Hcq. apply Hin, Hl in Hcq. destruct Hcq as [Hc ->].
    split; [reflexivity|apply count_of_pos, Hc].
  - intros c Hc Hnot c' q' Hc'.
    pose proof (Hout (c, inject_Z (Z.of_nat (count_of c s)))
                  (proj2 (Hl _ _) (conj Hc eq_refl)) Hnot _ Hc') as Hle.
    apply Hin, Hl in Hc'. destruct Hc' as [_ ->]. cbn [snd] in Hle.
    rewrite <- Zle_Qle in Hle. lia.
Qed.

(** The ranking that [groupby(key)[col].sum().sort_values().head(n)] yields. *)
Lemma groupby_sum_head (n : nat) (df : DataFrame)
    (key : PlantRecord -> option string) (val : PlantRecord -> option Q) :
  let total k := series_sum (map (fun ir => val (snd ir))
                               (filter (fun ir => str_is k (key (snd ir))) (rows df))) in
  let shown := firstn n (sort_values (groupby_sum df key val)) in
  List.length shown
  = Nat.min n (nunique (map (fun ir => key (snd ir)) (rows df)))
  /\ NoDup (map fst shown)
  /\ StronglySorted (fun a b => (snd b <= snd a)%Q) shown
  /\ (forall k q, In (k, q) shown ->
        q = total k /\ exists ir, In ir (rows df) /\ key (snd ir) = Some k)
  /\ (forall ir k, In ir (rows df) -> key (snd ir) = Some k ->
      ~ In k (map fst shown) ->
      forall k' q', In (k', q') shown -> (total k <= q')%Q).
Proof.
  cbv zeta. set (l := groupby_sum df key val).
  set (keys := map (fun ir => key (snd ir)) (rows df)).
  assert (Hfst : map fst l = sorted (unique (dropna keys))).
  { unfold l, groupby_sum. rewrite map_map. apply map_id. }
  assert (Hnd : NoDup (map fst l)).
  { rewrite Hfst. apply sorted_NoDup, unique_from_NoDup. }
  assert (Hl : forall k q, In (k, q) l <->
            (exists ir, In ir (rows df) /\ key (snd ir) = Some k)
            /\ q = series_sum (map (fun ir => val (snd ir))
                             (filter (fun ir => str_is k (key (snd ir))) (rows df)))).
  { intros k q. unfold l, groupby_sum. rewrite in_map_iff. split.
    - intros (k' & E & Hk'). injection E as -> <-.
      apply (proj1 (sorted_In _ _)) in Hk'. unfold unique in Hk'.
      apply (proj1 (unique_from_In _ _ _)) in Hk'.
      destruct Hk' as [Hk' _]. apply (proj1 (dropna_In _ _)) in Hk'.
      apply in_map_iff in Hk'.
      destruct Hk' as (ir & Ek & Hir). split; [exists ir; auto|reflexivity].
    - intros [(ir & Hir & Ek) ->]. exists k. split; [reflexivity|].
      apply (proj2 (sorted_In _ _)). unfold unique.
      apply (proj2 (unique_from_In _ _ _)).
      split; [|intros []]. apply (proj2 (dropna_In _ _)), in_map_iff.
      exists ir. auto. }
  destruct (top_n_of_sorted n l Hnd) as (Hlen & Hin & Hnd' & Hss & Hout).
  split.
  { rewrite Hlen. unfold nunique. fold keys.
    rewrite <- (length_map fst l), Hfst, length_sorted. reflexivity. }
  split; [exact Hnd'|]. split; [exact Hss|]. split.
  - intros k q Hkq. apply Hin, Hl in Hkq. destruct Hkq as [Hk ->].
    split; [reflexivity|exact Hk].
  - intros ir k Hir Ek Hnot k' q' Hk'.
    exact (Hout (k, _) (proj2 (Hl _ _) (conj (ex_intro _ ir (conj Hir Ek)) eq_refl))
             Hnot _ Hk').
Qed.

End TopN.

Lemma insert_desc_perm (x : string * Q) (l : Labelled) :
  Permutation (insert_desc x l) (x :: l).
Proof.
  induction l as [|y l IH]; simpl; [apply Permutation_refl|].
  destruct (Qle_bool (snd y) (snd x)); [apply Permutation_refl|].
  eapply Permutation_trans; [apply perm_skip, IH|apply perm_swap].
Qed.

Lemma insert_desc_sorted (x : string * Q) (l : Labelled) :
  StronglySorted (fun a b => (snd b <= snd a)%Q) l ->
  StronglySorted (fun a b => (snd b <= snd a)%Q) (insert_desc x l).
Proof.
  induction 1 as [|y l Hs IH Hy]; simpl.
  - constructor; constructor.
  - destruct (Qle_bool (snd y) (snd x)) eqn:E.
    + apply Qle_bool_iff in E. constructor; [constructor; assumption|].
      constructor; [exact E|].
      eapply Forall_impl; [|exact Hy]. intros a Ha. cbn beta in *.
      eapply Qle_trans; eauto.
    + assert (Hxy : (snd x <= snd y)%Q).
      { apply Qlt_le_weak, Qnot_le_lt. intros H. apply Qle_bool_iff in H. congruence. }
      constructor; [exact IH|].
      apply Forall_forall. intros a Ha.
      apply (Permutation_in _ (insert_desc_perm x l)) in Ha.
      destruct Ha as [<-|Ha]; [exact Hxy|].
      rewrite Forall_forall in Hy. apply Hy, Ha.
Qed.

(** Insertion sort is one of the sorts the rankings may be run with. *)
Lemma insertion_sort_desc_ok : sorts_descending insertion_sort_desc.
Proof.
  intros l. induction l as [|x l [IHp IHs]]; simpl.
  - split; [apply Permutation_refl|constructor].
  - split.
    + eapply Permutation_trans; [apply insert_desc_perm|apply perm_skip, IHp].
    + apply insert_desc_sorted, IHs.
Qed.

Lemma firstn_firstn_le {X} (m n : nat) (l : list X) :
  m <= n -> firstn m (firstn n l) = firstn m l.
Proof. intros H. rewrite firstn_firstn. f_equal. lia. Qed.

Lemma count_of_pos_inv (c : string) (s : Series string) :
  1 <= count_of c s -> In (Some c) s.
Proof.
  unfold count_of. intros H.
  destruct (filter (str_is c) s) as [|y t] eqn:F; [simpl in H; lia|].
  assert (Hy : In y (filter (str_is c) s)) by (rewrite F; left; reflexivity).
  apply filter_In in Hy. destruct Hy as [Hy1 Hy2].
  apply str_is_eq in Hy2. subst y. exact Hy1.
Qed.





(** ** Environmental analysis tab *)

(** The filter written out in tab 4 is the filter of the sidebar. *)
Lemma env_filtering_logic_same (env : Ref) (C O : string) (R : Z * Z) :
  env_filtering_logic env C O R = filtering_logic env C O R.
Proof. reflexivity. Qed.

Lemma filtering_logic_key_error_country (h : Heap) (r : Ref) (df : DataFrame)
    (C O : string) (R : Z * Z) :
  nth_error h r = Some df ->
  String.eqb C All = false -> has_col df country_col = false ->
  filtering_logic r C O R h = Raise (KeyError country_col).
Proof.
  intros H Hs Hc. unfold filtering_logic.
  rewrite (bind_ok _ _ _ _ _ (copy_run _ _ _ H)).
  apply bind_raise. unfold country_step. rewrite Hs. cbn [negb].
  apply bind_raise. eapply column_raise; [apply nth_error_alloc|exact Hc].
Qed.

Lemma environmental_map_index (df : DataFrame) (map_type : string) (fig : MapFig) :
  create_environmental_map df map_type = Ok (Some fig) ->
  index (map_data fig) = map fst (filter (fun ir => env_map_row (snd ir)) (rows df)).
Proof.
  unfold create_environmental_map.
  destruct (has_col df latitude_left_col) eqn:H1; [|discriminate].
  destruct (has_col df longitude_left_col) eqn:H2; [|discriminate].
  cbn [negb orb].
  destruct (has_col df value_col) eqn:H3.
  2:{ unfold dropna_subset, missing_col. rewrite H1, H2, H3. discriminate. }
  rewrite (env_map_clean df H1 H2 H3).
  destruct (String.eqb map_type "environmental").
  { intros E. injection E as <-. reflexivity. }
  destruct (String.eqb map_type "capacity_env").
  { destruct (has_col _ capcol); [|discriminate].
    destruct (fillna_capacity _) as [d|e] eqn:F; [|discriminate].
    intros E. injection E as <-. cbn [map_data].
    apply fillna_capacity_index in F. destruct F as [_ ->]. reflexivity. }
  destruct (String.eqb map_type "density_env"); [|discriminate].
  intros E. injection E as <-. reflexivity.
Qed.

Lemma deref_run (h : Heap) (r : Ref) (df : DataFrame) :
  nth_error h r = Some df -> deref r h = Ok (df, h).
Proof. intros H. unfold deref. rewrite H. reflexivity. Qed.

Lemma environmental_map_total (df : DataFrame) (map_type : string) :
  has_col df latitude_left_col = true ->
  has_col df longitude_left_col = true ->
  has_col df value_col = true ->
  exists o, create_environmental_map df map_type = Ok o.
Proof.
  intros H1 H2 H3. unfold create_environmental_map. rewrite H1, H2. cbn [negb orb].
  rewrite (env_map_clean df H1 H2 H3).
  destruct (String.eqb map_type "environmental"); [eexists; reflexivity|].
  destruct (String.eqb map_type "capacity_env").
  { destruct (has_col _ capcol) eqn:Hc; [|eexists; reflexivity].
    destruct (fillna_capacity_ok _ Hc) as [d F]. rewrite F. eexists. reflexivity. }
  destruct (String.eqb map_type "density_env"); eexists; reflexivity.
Qed.

(** X17: tab 4 shows its "not available" warning when the environmental
    table is missing or empty. Otherwise it filters a copy of that table
    with the sidebar's selection: a country other than ["All"], though
    offered from the plants table, raises [KeyError] when the environmental
    table has no country column; when the selection fits the table and the
    map's three columns are there, the loaded table is left as it was, the
    metrics are those of the filtered rows, and the map plots exactly the
    rows that pass the selection and have both left-hand coordinates and a
    value. *)
Theorem environmental_tab_view
    (h : Heap) (env : Ref) (data : DataFrame) (C O : string) (R : Z * Z)
    (map_type : string) :
  nth_error h env = Some data ->
  environmental_tab None C O R map_type h = Ok (StWarning env_unavailable, h)
  /\ (empty data = true ->
      environmental_tab (Some env) C O R map_type h
      = Ok (StWarning env_unavailable, h))
  /\ (empty data = false -> C <> All -> has_col data country_col = false ->
      environmental_tab (Some env) C O R map_type h = Raise (KeyError country_col))
  /\ (empty data = false -> criteria_ok data C O = true ->
      has_col data latitude_left_col = true ->
      has_col data longitude_left_col = true ->
      has_col data value_col = true ->
      exists view h',
        environmental_tab (Some env) C O R map_type h = Ok (Plots view, h')
        /\ nth_error h' env = Some data
        /\ env_filtered view
           = {| columns := columns data;
                rows := filter (keep data C O R) (rows data) |}
        /\ env_metrics view = create_environmental_metrics (env_filtered view)
        /\ forall fig, env_map view = Some fig ->
             index (map_data fig)
             = map fst (filter (fun ir => keep data C O R ir && env_map_row (snd ir))
                          (rows data))).
Proof.
  intros H. split; [reflexivity|]. split; [|split].
  - intros He. unfold environmental_tab.
    rewrite (bind_ok _ _ _ _ _ (deref_run _ _ _ H)). rewrite He. reflexivity.
  - intros He HC Hc. unfold environmental_tab.
    rewrite (bind_ok _ _ _ _ _ (deref_run _ _ _ H)). rewrite He. cbn [negb].
    apply bind_raise. rewrite env_filtering_logic_same.
    eapply filtering_logic_key_error_country; eauto.
    apply String.eqb_neq. exact HC.
  - intros He Hok H1 H2 H3. unfold environmental_tab.
    rewrite (bind_ok _ _ _ _ _ (deref_run _ _ _ H)). rewrite He. cbn [negb].
    rewrite env_filtering_logic_same.
    destruct (filtering_logic_run h env data C O R H Hok) as (r & ext & Rn & N).
    rewrite (bind_ok _ _ _ _ _ Rn).
    rewrite (bind_ok _ _ _ _ _ (deref_run _ _ _ N)).
    set (out := {| columns := columns data;
                   rows := filter (keep data C O R) (rows data) |}) in *.
    destruct (environmental_map_total out map_type H1 H2 H3) as [o Ho].
    unfold bind at 1. unfold lift. rewrite Ho. unfold ret.
    eexists. eexists. split; [reflexivity|].
    split; [apply nth_error_extend; exact H|].
    cbn [env_filtered env_metrics env_map].
    split; [reflexivity|]. split; [reflexivity|].
    intros fig ->. rewrite (environmental_map_index out map_type fig Ho).
    unfold out. cbn [rows]. rewrite filter_twice. reflexivity.
Qed.

Lemma environmental_tab_view_witness :
  (exists view h',
     environmental_tab (Some 0) "B" All (0%Z, 100%Z) "environmental" [env_four]
     = Ok (Plots view, h')
     /\ nth_error h' 0 = Some env_four
     /\ index (env_filtered view) = [2; 3])
  /\ environmental_tab (Some 0) "B" All (0%Z, 100%Z) "environmental"
       [read_csv [value_col] (map snd (rows env_four))]
     = Raise (KeyError country_col).
Proof.
  split.
  - destruct (environmental_tab_view [env_four] 0 env_four "B" All (0%Z, 100%Z)
                "environmental" eq_refl) as (_ & _ & _ & Hview).
    destruct (Hview eq_refl eq_refl eq_refl eq_refl eq_refl)
      as (view & h' & Htab & Hbase & Hf & _).
    exists view, h'. split; [exact Htab|]. split; [exact Hbase|].
    rewrite Hf. reflexivity.
  - destruct (environmental_tab_view
                [read_csv [value_col] (map snd (rows env_four))] 0
                (read_csv [value_col] (map snd (rows env_four)))
                "B" All (0%Z, 100%Z) "environmental" eq_refl) as (_ & _ & Herr & _).
    apply Herr; [reflexivity|discriminate|reflexivity].
Defined.

(** ** Filtering never raises a metric *)

Lemma fold_Qplus_acc (l : list Q) (acc : Q) :
  (fold_left Qplus l acc == acc + fold_left Qplus l 0)%Q.
Proof.
  revert acc. induction l as [|x l IH]; intros acc; simpl.
  - ring.
  - rewrite (IH (acc + x)%Q), (IH (0 + x)%Q). ring.
Qed.

Lemma Qsum_cons (x : Q) (l : list Q) : (Qsum (x :: l) == x + Qsum l)%Q.
Proof. unfold Qsum. simpl. rewrite fold_Qplus_acc. ring. Qed.

Lemma series_sum_filter_le (p : nat * PlantRecord -> bool) (l : list (nat * PlantRecord)) :
  (forall ir c, In ir l -> capacity (snd ir) = Some c -> (0 <= c)%Q) ->
  (series_sum (map (fun ir => capacity (snd ir)) (filter p l))
   <= series_sum (map (fun ir => capacity (snd ir)) l))%Q.
Proof.
  unfold series_sum. induction l as [|[i r] l IH]; intros Hpos; [apply Qle_refl|].
  assert (IH' := IH (fun ir c Hin => Hpos ir c (or_intror Hin))). clear IH.
  simpl. destruct (p (i, r)); simpl.
  - destruct (capacity r) as [c|]; [|exact IH'].
    rewrite !Qsum_cons. lra.
  - destruct (capacity r) as [c|] eqn:Ec; [|exact IH'].
    rewrite Qsum_cons.
    pose proof (Hpos (i, r) c (or_introl eq_refl) Ec). lra.
Qed.

Lemma nunique_incl (s1 s2 : Series string) :
  (forall c, In (Some c) s1 -> In (Some c) s2) -> nunique s1 <= nunique s2.
Proof.
  intros Hincl. unfold nunique, unique. apply NoDup_incl_length.
  - apply unique_from_NoDup.
  - intros c Hc. apply (proj1 (unique_from_In _ _ _)) in Hc. destruct Hc as [Hc _].
    apply (proj2 (unique_from_In _ _ _)). split; [|intros []].
    apply (proj2 (dropna_In _ _)), Hincl, (proj1 (dropna_In _ _)), Hc.
Qed.


